(** * sentinel: the sentiment analyzer (src/analyzer.py)

    A shallow embedding of [SentimentAnalyzer]: the text normalizer
    ([preprocess_text]), the item scorer ([analyze_text]), the topic
    extractor ([extract_topics]), the batch aggregator ([analyze_posts]) and
    [calculate_overall_sentiment].

    - Python [str] values are Rocq strings whose characters are read as the
      code points U+0000..U+00FF.  On that range the character classes of
      [re] ([\s], [\w]) and [str.lower] are finite tables, written out below,
      and [str.lower] does not leave the range.
    - Python [float] is the kernel's binary64 [float]; [int] is [Z].
    - The post dictionaries are mutable objects: they live in a store
      ([heap]) and the list of posts is a list of references into it.
    - VADER, the transformer pipeline, spaCy and the NLTK stopword list are
      collaborators: fields of the record [SentimentAnalyzer] (Python's
      [self]). *)

From Stdlib Require Import ZArith Floats Ascii String List.
From stdpp Require Import base option list gmap strings sorting.

Set Warnings "-inexact-float,-register-all".

(** ** Characters and strings *)

Module PyStr.

Definition code (c : ascii) : nat := nat_of_ascii c.

Definition between (lo hi n : nat) : bool := (lo <=? n)%nat && (n <=? hi)%nat.

(** [str.isspace] on one character, which is also [\s] of [re] on [str]:
    TAB..CR, FS..US, space, NEL and NBSP. *)
Definition is_space (c : ascii) : bool :=
  let n := code c in
  between 9 13 n || between 28 32 n || (n =? 133)%nat || (n =? 160)%nat.

(** [\w] of [re] on [str]: alphanumeric (letters, decimals, digits, numerics)
    or the underscore. *)
Definition is_word (c : ascii) : bool :=
  let n := code c in
  between 48 57 n || between 65 90 n || (n =? 95)%nat || between 97 122 n
  || (n =? 170)%nat || between 178 179 n || (n =? 181)%nat
  || between 185 186 n || between 188 190 n
  || between 192 214 n || between 216 246 n || between 248 255 n.

(** [str.lower] on one character: A..Z and the upper-case letters of the
    Latin-1 block (all but the multiplication sign) move up by 32. *)
Definition lower_char (c : ascii) : ascii :=
  let n := code c in
  if between 65 90 n || between 192 214 n || between 216 222 n
  then ascii_of_nat (n + 32) else c.

Fixpoint lower (s : string) : string :=
  match s with
  | EmptyString => EmptyString
  | String c r => String (lower_char c) (lower r)
  end.

Fixpoint filter_chars (keep : ascii -> bool) (s : string) : string :=
  match s with
  | EmptyString => EmptyString
  | String c r => if keep c then String c (filter_chars keep r) else filter_chars keep r
  end.

(** What is left of [s] after its longest prefix of non-space characters. *)
Fixpoint skip_nonspace (s : string) : string :=
  match s with
  | EmptyString => EmptyString
  | String c r => if is_space c then s else skip_nonspace r
  end.

(** Does a match of [http\S+] start at the head of [s]? *)
Definition url_starts (s : string) : bool :=
  match s with
  | String "h" (String "t" (String "t" (String "p" (String c _)))) => negb (is_space c)
  | _ => false
  end.

(** [re.sub(r'http\S+', '', s)], as one left-to-right scan.  [in_url] says
    that the scan is inside a match: [\S+] is greedy and nothing follows it in
    the pattern, so a match runs to the next space character or to the end. *)
Fixpoint sub_url (in_url : bool) (s : string) : string :=
  match s with
  | EmptyString => EmptyString
  | String c r =>
      if in_url && negb (is_space c) then sub_url true r
      else if url_starts s then sub_url true r
      else String c (sub_url false r)
  end.

Definition re_sub_url (s : string) : string := sub_url false s.

(** [re.sub(r'[^\w\s]', '', s)]. *)
Definition keep_char (c : ascii) : bool := is_word c || is_space c.

Definition re_sub_special (s : string) : string := filter_chars keep_char s.

(** Is there a match of [http\S+] anywhere in [s]? *)
Fixpoint has_url (s : string) : bool :=
  match s with
  | EmptyString => false
  | String _ r => url_starts s || has_url r
  end.

(** [str.strip()]: leading and trailing space characters removed. *)
Fixpoint lstrip (s : string) : string :=
  match s with
  | EmptyString => EmptyString
  | String c r => if is_space c then lstrip r else s
  end.

Fixpoint rstrip (s : string) : string :=
  match s with
  | EmptyString => EmptyString
  | String c r =>
      match rstrip r with
      | EmptyString => if is_space c then EmptyString else String c EmptyString
      | r' => String c r'
      end
  end.

Definition strip (s : string) : string := rstrip (lstrip s).

(** [str.split()]: the maximal runs of non-space characters.  [cur] is the
    run being read, in reverse. *)
Fixpoint split_go (cur : list ascii) (s : string) : list string :=
  match s with
  | EmptyString =>
      match cur with [] => [] | _ => [string_of_list_ascii (rev cur)] end
  | String c r =>
      if is_space c
      then match cur with
           | [] => split_go [] r
           | _ => string_of_list_ascii (rev cur) :: split_go [] r
           end
      else split_go (c :: cur) r
  end.

Definition split (s : string) : list string := split_go [] s.

(** [sep.join(parts)]. *)
Fixpoint join (sep : string) (parts : list string) : string :=
  match parts with
  | [] => EmptyString
  | [p] => p
  | p :: rest => p +:+ sep +:+ join sep rest
  end.

(** [s[:n]]. *)
Definition take_prefix (n : nat) (s : string) : string := substring 0 n s.


End PyStr.
Import PyStr.

(** ** Values, the store and effects *)

(** A reference to a mutable dictionary of the store. *)
Definition loc := nat.

Inductive pyval :=
| PNone
| PBool (b : bool)
| PInt (z : Z)
| PFloat (f : float)
| PStr (s : string)
| PList (l : list pyval)
| PDict (d : gmap string pyval)
| PRef (r : loc).

Abbreviation dict := (gmap string pyval).
Abbreviation heap := (gmap loc (gmap string pyval)).

(** The dictionary a reference denotes.  References are never dangling in
    Python; a location the store does not bind reads as the empty dict. *)
Definition deref (h : heap) (r : loc) : dict := h !!! r.

Definition dict_is_empty (d : dict) : bool :=
  match map_to_list d with [] => true | _ => false end.

(** [bool(v)]. *)
Definition truthy (h : heap) (v : pyval) : bool :=
  match v with
  | PNone => false
  | PBool b => b
  | PInt z => negb (z =? 0)%Z
  | PFloat f => negb (f =? 0)%float
  | PStr s => negb (String.eqb s "")
  | PList l => match l with [] => false | _ => true end
  | PDict d => negb (dict_is_empty d)
  | PRef r => negb (dict_is_empty (deref h r))
  end.

(** [d.get(k, default)]. *)
Definition dict_get (d : dict) (k : string) (default : pyval) : pyval :=
  match d !! k with Some v => v | None => default end.

(** [float(z)] for an [int]: the nearest binary64 value, ties to even. *)
Definition float_of_int (z : Z) : float :=
  SF2Prim (binary_normalize prec emax z 0 false).

Inductive exn :=
| AttributeError
| KeyError (k : string)
| TypeError
| ZeroDivisionError.

(** What the analyzer does that a caller can observe besides its result:
    calls of the item scorer and of the topic extractor, calls of the
    collaborators, and the message printed when the transformer fails. *)
Inductive event :=
| CallAnalyzeText (text : pyval)
| CallExtractTopics (texts : list pyval)
| CallPolarityScores (text : string)
| CallTransformer (text : string)
| CallNlp (corpus : string)
| Printed.

Record state := State { st_heap : heap; st_log : list event }.

Inductive outcome (A : Type) :=
| Ok (a : A)
| Raise (e : exn).
Arguments Ok {A} a.
Arguments Raise {A} e.

(** Computations of the analyzer: they read and write the store, append to
    the log, and return or raise. *)
Definition M (A : Type) : Type := state -> outcome A * state.

Definition ret {A} (a : A) : M A := fun s => (Ok a, s).

Definition raise {A} (e : exn) : M A := fun s => (Raise e, s).

Definition bind {A B} (c : M A) (k : A -> M B) : M B :=
  fun s => match c s with
           | (Ok a, s') => k a s'
           | (Raise e, s') => (Raise e, s')
           end.

Notation "x <- c ;; k" := (bind c (fun x => k))
  (at level 100, c at next level, right associativity).
Notation "c ;; k" := (bind c (fun _ => k))
  (at level 100, right associativity).

Definition emit (e : event) : M unit :=
  fun s => (Ok tt, State (st_heap s) (st_log s ++ [e])).

Definition get_heap : M heap := fun s => (Ok (st_heap s), s).

(** [post[k] = v] on the dictionary at [r]. *)
Definition set_item (r : loc) (k : string) (v : pyval) : M unit :=
  fun s => (Ok tt, State (<[r := <[k := v]> (deref (st_heap s) r)]> (st_heap s)) (st_log s)).

(** [for x in l: f(x)]. *)
Fixpoint for_each {A} (f : A -> M unit) (l : list A) : M unit :=
  match l with
  | [] => ret tt
  | x :: rest => f x ;; for_each f rest
  end.

(** [[f(x) for x in l]]. *)
Fixpoint map_m {A B} (f : A -> M B) (l : list A) {struct l} : M (list B) :=
  match l with
  | x :: rest => y <- f x ;; ys <- map_m f rest ;; ret (y :: ys)
  | [] => ret []
  end.

(** [v[k]] for a string key. *)
Definition subscript (v : pyval) (k : string) : M pyval :=
  match v with
  | PDict d => match d !! k with Some x => ret x | None => raise (KeyError k) end
  | PRef r =>
      h <- get_heap ;;
      match deref h r !! k with Some x => ret x | None => raise (KeyError k) end
  | _ => raise TypeError
  end.

(** ** Arithmetic on [int] and [float] *)

Inductive num :=
| NInt (z : Z)
| NFloat (f : float).

Definition num_of (v : pyval) : option num :=
  match v with
  | PInt z => Some (NInt z)
  | PBool b => Some (NInt (if b then 1 else 0))
  | PFloat f => Some (NFloat f)
  | _ => None
  end.

Definition to_float (n : num) : float :=
  match n with NInt z => float_of_int z | NFloat f => f end.

Definition arith (on_int : Z -> Z -> pyval) (on_float : float -> float -> pyval)
    (a b : pyval) : M pyval :=
  match num_of a, num_of b with
  | Some (NInt x), Some (NInt y) => ret (on_int x y)
  | Some x, Some y => ret (on_float (to_float x) (to_float y))
  | _, _ => raise TypeError
  end.

(** [a * b] and [a + b] for a number [a], as the analyzer has them (a float
    factor, the running sum): a [b] that is not a number raises.  The ints
    met here are the 0 of the zero record and list lengths, so the
    [OverflowError] of converting a huge int is not modelled. *)
Definition py_mul : pyval -> pyval -> M pyval :=
  arith (fun x y => PInt (x * y)) (fun x y => PFloat (x * y)).

Definition py_add : pyval -> pyval -> M pyval :=
  arith (fun x y => PInt (x + y)) (fun x y => PFloat (x + y)).

Definition num_is_zero (n : num) : bool :=
  match n with NInt z => (z =? 0)%Z | NFloat f => (f =? 0)%float end.

(** [a / b]: true division, a float also for two ints (which stand for list
    lengths here, far below 2^53, where the quotient of the converted
    operands is the correctly rounded one). *)
Definition py_truediv (a b : pyval) : M pyval :=
  match num_of a, num_of b with
  | Some x, Some y =>
      if num_is_zero y then raise ZeroDivisionError
      else ret (PFloat (to_float x / to_float y))
  | _, _ => raise TypeError
  end.

(** [a >= b] and [a <= b].  (The analyzer compares floats only; an int
    operand is converted.) *)
Definition py_ge (a b : pyval) : M bool :=
  match num_of a, num_of b with
  | Some x, Some y => ret (to_float y <=? to_float x)%float
  | _, _ => raise TypeError
  end.

Definition py_le (a b : pyval) : M bool := py_ge b a.

(** [sum(values)]: from the int 0, left to right, one addition per element
    (CPython up to 3.11; later versions also carry a compensation term for
    the rounding errors of float additions). *)
Fixpoint sum_from (acc : pyval) (values : list pyval) : M pyval :=
  match values with
  | [] => ret acc
  | v :: rest => acc' <- py_add acc v ;; sum_from acc' rest
  end.

Definition py_sum (values : list pyval) : M pyval := sum_from (PInt 0) values.

(** [l.count(s)] for a string [s]: the elements equal to it. *)
Definition is_str (s : string) (v : pyval) : bool :=
  match v with PStr t => String.eqb t s | _ => false end.

Definition py_count (s : string) (l : list pyval) : nat :=
  length (filter (fun v => is_str s v = true) l).

Definition py_len {A} (l : list A) : pyval := PInt (Z.of_nat (length l)).

(** ** The analyzer *)

(** What [self.sid.polarity_scores] returns. *)
Record vader := Vader { v_neg : float; v_neu : float; v_pos : float; v_compound : float }.

(** What the analyzer reads of [self.nlp(text)]: the texts of the noun chunks
    and of the named entities, in document order. *)
Record doc := Doc { noun_chunks : list string; ents : list string }.

(** The fields of [self].  [transformer_model] is [None] where the pipeline
    raises, and otherwise the label and score of its first result. *)
Record SentimentAnalyzer := {
  polarity_scores : string -> vader;
  stopwords : gset string;
  use_transformers : bool;
  transformer_model : string -> option (string * float);
  nlp : string -> doc
}.

Definition zero_scores : dict :=
  list_to_map [("compound", PInt 0); ("pos", PInt 0); ("neu", PInt 0); ("neg", PInt 0)].

Definition scores_dict (v : vader) : dict :=
  list_to_map [("neg", PFloat (v_neg v)); ("neu", PFloat (v_neu v));
               ("pos", PFloat (v_pos v)); ("compound", PFloat (v_compound v))].

Definition analyze_text (self : SentimentAnalyzer) (text : pyval) : M pyval :=
  emit (CallAnalyzeText text) ;;
  h <- get_heap ;;
  if negb (truthy h text) then ret (PDict zero_scores)
  else
    match text with
    | PStr s =>
        if String.eqb (strip s) "" then ret (PDict zero_scores)
        else
          emit (CallPolarityScores s) ;;
          let sentiment := scores_dict (polarity_scores self s) in
          if use_transformers self then
            emit (CallTransformer (take_prefix 512 s)) ;;
            match transformer_model self (take_prefix 512 s) with
            | Some (label, score) =>
                ret (PDict (<["transformer_score" := PFloat score]>
                             (<["transformer_label" := PStr label]> sentiment)))
            | None => emit Printed ;; ret (PDict sentiment)
            end
          else ret (PDict sentiment)
    | _ => raise AttributeError
    end.

Definition preprocess_text (text : pyval) : string :=
  match text with
  | PStr s =>
      if String.eqb s "" then ""
      else lower (re_sub_special (re_sub_url s))
  | _ => ""
  end.

(** [collections.Counter]: a dict of counts, in the order the keys were first
    seen. *)
Fixpoint counter_add (t : string) (c : list (string * nat)) : list (string * nat) :=
  match c with
  | [] => [(t, 1)]
  | (k, n) :: rest =>
      if String.eqb k t then (k, S n) :: rest else (k, n) :: counter_add t rest
  end.

Definition Counter (elems : list string) : list (string * nat) :=
  fold_left (fun c t => counter_add t c) elems [].

(** [sorted(items, key=count, reverse=True)]: a stable sort, so items of
    equal count keep their order. *)
Fixpoint insert_desc (x : string * nat) (l : list (string * nat)) : list (string * nat) :=
  match l with
  | [] => [x]
  | y :: rest => if (x.2 <? y.2)%nat then y :: insert_desc x rest else x :: l
  end.

Definition sort_desc (l : list (string * nat)) : list (string * nat) :=
  foldr insert_desc [] l.

(** [Counter.most_common(n)] for an int [n], which is
    [heapq.nlargest(n, items, key=count)]: the first [n] of the sorted items,
    none when [n <= 0]. *)
Definition most_common (n : Z) (c : list (string * nat)) : list (string * nat) :=
  take (Z.to_nat n) (sort_desc c).

Definition is_stopword (self : SentimentAnalyzer) (s : string) : bool :=
  bool_decide (s ∈ stopwords self).

Definition chunk_ok (self : SentimentAnalyzer) (chunk : string) : bool :=
  negb (is_stopword self (lower chunk)) && (length (split chunk) <=? 3)%nat.

Definition ent_ok (self : SentimentAnalyzer) (ent : string) : bool :=
  negb (is_stopword self (lower ent)).

(** The list [topics] of [extract_topics] for a parsed document. *)
Definition candidates (self : SentimentAnalyzer) (d : doc) : list string :=
  filter (fun c => chunk_ok self c = true) (noun_chunks d)
  ++ filter (fun e => ent_ok self e = true) (ents d).

Definition corpus (texts : list pyval) : string :=
  join " " (map preprocess_text texts).

(** The (topic, count) pairs [extract_topics] returns, before they are made
    dicts. *)
Definition top_topics (self : SentimentAnalyzer) (texts : list pyval) (top_n : Z)
    : list (string * nat) :=
  most_common top_n (Counter (candidates self (nlp self (corpus texts)))).

Definition topic_entry (tc : string * nat) : pyval :=
  PDict (list_to_map [("topic", PStr tc.1); ("count", PInt (Z.of_nat tc.2))]).

Definition extract_topics (self : SentimentAnalyzer) (texts : list pyval) (top_n : Z)
    : M pyval :=
  emit (CallExtractTopics texts) ;;
  let all_text := corpus texts in
  emit (CallNlp all_text) ;;
  ret (PList (map topic_entry (top_topics self texts top_n))).

Definition zero_overall : dict :=
  list_to_map [("compound", PInt 0); ("positive", PInt 0);
               ("neutral", PInt 0); ("negative", PInt 0)].

Definition calculate_overall_sentiment (self : SentimentAnalyzer) (posts : list loc)
    : M pyval :=
  match posts with
  | [] => ret (PDict zero_overall)
  | _ =>
      sentiment_values <-
        map_m (fun post => s <- subscript (PRef post) "sentiment" ;;
                           subscript s "compound") posts ;;
      sentiment_categories <-
        map_m (fun post => subscript (PRef post) "sentiment_category") posts ;;
      total <- py_sum sentiment_values ;;
      compound <- py_truediv total (py_len sentiment_values) ;;
      positive <- py_truediv (PInt (Z.of_nat (py_count "positive" sentiment_categories)))
                             (py_len sentiment_categories) ;;
      neutral <- py_truediv (PInt (Z.of_nat (py_count "neutral" sentiment_categories)))
                            (py_len sentiment_categories) ;;
      negative <- py_truediv (PInt (Z.of_nat (py_count "negative" sentiment_categories)))
                             (py_len sentiment_categories) ;;
      ret (PDict (list_to_map [("compound", compound); ("positive", positive);
                               ("neutral", neutral); ("negative", negative)]))
  end.

(** The category of a compound score (the [if] chain of the loop of
    [analyze_posts]). *)
Definition sentiment_category (compound_sentiment : pyval) : M string :=
  is_pos <- py_ge compound_sentiment (PFloat 0.05) ;;
  if is_pos then ret "positive"
  else
    is_neg <- py_le compound_sentiment (PFloat (-0.05)) ;;
    if is_neg then ret "negative" else ret "neutral".

Definition sentiment_record (title_sentiment content_sentiment compound_sentiment : pyval)
    : pyval :=
  PDict (list_to_map [("title", title_sentiment); ("content", content_sentiment);
                      ("compound", compound_sentiment)]).

(** The body of the loop of [analyze_posts], for one post. *)
Definition score_post (self : SentimentAnalyzer) (post : loc) : M unit :=
  h <- get_heap ;;
  title_sentiment <- analyze_text self (dict_get (deref h post) "title" (PStr "")) ;;
  h <- get_heap ;;
  content_sentiment <- analyze_text self (dict_get (deref h post) "text" (PStr "")) ;;
  tc <- subscript title_sentiment "compound" ;;
  wt <- py_mul (PFloat 0.7) tc ;;
  cc <- subscript content_sentiment "compound" ;;
  wc <- py_mul (PFloat 0.3) cc ;;
  compound_sentiment <- py_add wt wc ;;
  set_item post "sentiment"
    (sentiment_record title_sentiment content_sentiment compound_sentiment) ;;
  category <- sentiment_category compound_sentiment ;;
  set_item post "sentiment_category" (PStr category).

Definition analyze_posts (self : SentimentAnalyzer) (posts : list loc) : M pyval :=
  match posts with
  | [] => ret (PList [])
  | _ =>
      for_each (score_post self) posts ;;
      h <- get_heap ;;
      let all_titles := map (fun post => dict_get (deref h post) "title" (PStr "")) posts in
      let all_texts := map (fun post => dict_get (deref h post) "text" (PStr "")) posts in
      topics <- extract_topics self (all_titles ++ all_texts) 10 ;;
      overall <- calculate_overall_sentiment self posts ;;
      ret (PDict (list_to_map [("posts", PList (map PRef posts)); ("topics", topics);
                               ("overall_sentiment", overall)]))
  end.

(** The result the specification gives for an empty batch. *)
Definition empty_batch_result : pyval :=
  PDict (list_to_map [("posts", PList []); ("topics", PList []);
                      ("overall_sentiment", PDict zero_overall)]).

(** ** Notions the statements use *)

(** The position at which [t] is first seen in [l] ([length l] when it is
    not there). *)
Fixpoint first_index (t : string) (l : list string) : nat :=
  match l with
  | [] => 0
  | x :: rest => if String.eqb x t then 0 else S (first_index t rest)
  end.

(** How often [t] is in [l]. *)
Definition occurrences (t : string) (l : list string) : nat :=
  length (filter (fun x => x = t) l).

(** [a] comes before [b] in the result of [most_common]: it is more
    frequent, or as frequent and seen first among the candidates. *)
Definition ranks_before (cands : list string) (a b : string * nat) : Prop :=
  (b.2 < a.2)%nat \/ (a.2 = b.2 /\ (first_index a.1 cands < first_index b.1 cands)%nat).

(** [c] returns [a] from some state. *)
Definition returns {A} (c : M A) (a : A) : Prop :=
  exists s s', c s = (Ok a, s').

(** The compound score of a polarity record, as a float. *)
Definition compound_of (scores : pyval) : option float :=
  match scores with
  | PDict d =>
      match d !! "compound" with
      | Some v => match num_of v with Some n => Some (to_float n) | None => None end
      | None => None
      end
  | _ => None
  end.

(** What the loop of [analyze_posts] leaves in a post [d]: the scores of its
    title and of its text, their weighted sum, and the category of the sum. *)
Definition scored (self : SentimentAnalyzer) (d : dict) : Prop :=
  exists (ts cs : pyval) (tc cc : float) (cat : string),
    returns (analyze_text self (dict_get d "title" (PStr ""))) ts
    /\ returns (analyze_text self (dict_get d "text" (PStr ""))) cs
    /\ compound_of ts = Some tc
    /\ compound_of cs = Some cc
    /\ d !! "sentiment" = Some (sentiment_record ts cs (PFloat (0.7 * tc + 0.3 * cc)))
    /\ returns (sentiment_category (PFloat (0.7 * tc + 0.3 * cc))) cat
    /\ d !! "sentiment_category" = Some (PStr cat).

(** A field as the content source delivers it: a string, or [None]. *)
Definition text_like (v : pyval) : Prop :=
  v = PNone \/ exists s, v = PStr s.

(** The [title] and [text] of a post, where present, are text-like. *)
Definition fields_ok (d : dict) : Prop :=
  forall k v, k = "title" \/ k = "text" -> d !! k = Some v -> text_like v.

(** A compound entry of a polarity record: the int 0 or a float. *)
Definition is_score (c : pyval) : Prop := c = PInt 0 \/ exists f, c = PFloat f.

(** A compound score as [analyze_text] and the loop produce them: a float, or
    the int 0 of the zero record. *)
Definition compound_value (v : pyval) : option float :=
  match v with
  | PFloat f => Some f
  | PInt 0 => Some 0%float
  | _ => None
  end.

Definition is_category (c : string) : bool :=
  String.eqb c "positive" || String.eqb c "neutral" || String.eqb c "negative".

(** The compound score and the category an annotated item carries. *)
Definition item_compound (d : dict) : option float :=
  match d !! "sentiment" with
  | Some (PDict sd) =>
      match sd !! "compound" with Some v => compound_value v | None => None end
  | _ => None
  end.

Definition item_category (d : dict) : option string :=
  match d !! "sentiment_category" with
  | Some (PStr c) => if is_category c then Some c else None
  | _ => None
  end.

(** The sum of floats as [sum] computes it, and the quotient of two counts
    as [/] computes it. *)
Definition float_sum (l : list float) : float := fold_left PrimFloat.add l 0%float.

Definition fraction (k n : nat) : float :=
  (float_of_int (Z.of_nat k) / float_of_int (Z.of_nat n))%float.

(** What [calculate_overall_sentiment] returns for compound scores [cs] and
    categories [cats]. *)
Definition overall_record (cs : list float) (cats : list string) : dict :=
  let n := length cats in
  list_to_map
    [("compound", PFloat (float_sum cs / float_of_int (Z.of_nat (length cs))));
     ("positive", PFloat (fraction (occurrences "positive" cats) n));
     ("neutral", PFloat (fraction (occurrences "neutral" cats) n));
     ("negative", PFloat (fraction (occurrences "negative" cats) n))].

(** A string of space characters only (the empty string too). *)
Fixpoint all_space (s : string) : bool :=
  match s with
  | EmptyString => true
  | String c r => is_space c && all_space r
  end.

(** [isinstance(v, str)]. *)
Definition isinstance_str (v : pyval) : bool :=
  match v with PStr _ => true | _ => false end.

(** ** A small analyzer to run the definitions on *)

(** VADER on three words. *)
Definition demo_polarity (s : string) : vader :=
  if String.eqb s "great" then Vader 0 0 1 1
  else if String.eqb s "bad" then Vader 1 0 0 (-0.5423)
  else Vader 0 1 0 0.

(** A parser that reports every word as a noun chunk and no entity. *)
Definition demo_nlp (c : string) : doc := Doc (split c) [].

Definition demo : SentimentAnalyzer :=
  {| polarity_scores := demo_polarity;
     stopwords := {[ "the"; "a" ]};
     use_transformers := false;
     transformer_model := fun _ => None;
     nlp := demo_nlp |}.

(** Two posts: one with a title and a text, one with neither. *)
Definition demo_heap : heap :=
  list_to_map
    [(0%nat, list_to_map [("id", PStr "p0"); ("title", PStr "great"); ("text", PStr "so so")]);
     (1%nat, list_to_map [("id", PStr "p1")])].

Definition demo_start : state := State demo_heap [].

Definition demo_run : outcome pyval * state := analyze_posts demo [0%nat; 1%nat] demo_start.

Definition demo_value : pyval :=
  match demo_run.1 with Ok v => v | Raise _ => PNone end.



(** ** The comments endpoint and the scraper (src/main.py, src/scraper.py) *)

(** The body of the loop of [get_post_comments] in main.py, for one
    comment. *)
Definition score_comment (self : SentimentAnalyzer) (comment : loc) : M unit :=
  h <- get_heap ;;
  sentiment <- analyze_text self (dict_get (deref h comment) "text" (PStr "")) ;;
  set_item comment "sentiment" sentiment ;;
  compound <- subscript sentiment "compound" ;;
  category <- sentiment_category compound ;;
  set_item comment "sentiment_category" (PStr category).

(** What [get_post_comments] in main.py does with the comments the scraper
    gave it. *)
Definition analyze_comments (self : SentimentAnalyzer) (comments : list loc) : M pyval :=
  for_each (score_comment self) comments ;;
  overall_sentiment <- calculate_overall_sentiment self comments ;;
  ret (PDict (list_to_map [("comments", PList (map PRef comments));
                           ("overall_sentiment", overall_sentiment)])).

(** What an endpoint answers: the value it returns, or the
    [HTTPException] its [except] clause raises. *)
Inductive response :=
| Json (body : pyval)
| HTTPException (status_code : Z) (detail : exn).

(** [try: return body except Exception as e: raise HTTPException(500, str(e))]. *)
Definition endpoint (body : M pyval) (s : state) : response * state :=
  match body s with
  | (Ok v, s') => (Json v, s')
  | (Raise e, s') => (HTTPException 500 e, s')
  end.

(** [l[:limit]]. *)
Definition slice_to {A} (limit : Z) (l : list A) : list A :=
  if (0 <=? limit)%Z then take (Z.to_nat limit) l
  else take (length l - Z.to_nat (- limit)) l.

(** A new dict object: a location the store does not bind yet. *)
Definition alloc (d : dict) : M loc :=
  fun s => let r := fresh (dom (st_heap s)) in
           (Ok r, State (<[r := d]> (st_heap s)) (st_log s)).

(** What the scraper reads of a praw submission and of a praw comment.
    [subm_author] and [com_author] are [str(x.author)], [subm_subreddit] is
    [x.subreddit.display_name]. *)
Record submission := Submission {
  subm_id : string; subm_title : string; subm_selftext : string;
  subm_score : Z; subm_num_comments : Z; subm_created_utc : float;
  subm_url : string; subm_author : string; subm_subreddit : string
}.

Record reddit_comment := RedditComment {
  com_id : string; com_body : string; com_score : Z;
  com_created_utc : float; com_author : string
}.

(** [datetime.fromtimestamp(t).isoformat()], which depends on the local
    time zone, is a parameter of the scraper's functions. *)
Definition post_dict (isoformat : float -> string) (subreddit : string) (post : submission)
    : dict :=
  list_to_map
    [("id", PStr (subm_id post)); ("title", PStr (subm_title post));
     ("text", PStr (subm_selftext post)); ("score", PInt (subm_score post));
     ("num_comments", PInt (subm_num_comments post));
     ("created_utc", PStr (isoformat (subm_created_utc post)));
     ("url", PStr (subm_url post)); ("author", PStr (subm_author post));
     ("subreddit", PStr subreddit)].

Definition comment_dict (isoformat : float -> string) (comment : reddit_comment) : dict :=
  list_to_map
    [("id", PStr (com_id comment)); ("text", PStr (com_body comment));
     ("score", PInt (com_score comment));
     ("created_utc", PStr (isoformat (com_created_utc comment)));
     ("author", PStr (com_author comment))].

(** [RedditScraper.get_hot_posts]; [listing] is what
    [subreddit.hot(limit=limit)] yields. *)
Definition get_hot_posts (isoformat : float -> string) (subreddit_name : string)
    (listing : list submission) : M (list loc) :=
  map_m (fun post => alloc (post_dict isoformat subreddit_name post)) listing.


(** [RedditScraper.get_post_comments]; [flattened] is
    [submission.comments.list()]. *)
Definition get_post_comments (isoformat : float -> string) (flattened : list reddit_comment)
    (limit : Z) : M (list loc) :=
  map_m (fun comment => alloc (comment_dict isoformat comment)) (slice_to limit flattened).

(** [RedditScraper.get_trending_topics]; [trending] is what praw lists. *)
Definition get_trending_topics {A} (trending : list A) (limit : Z) : list A :=
  slice_to limit trending.



Definition post_comments_endpoint (self : SentimentAnalyzer) (isoformat : float -> string)
    (flattened : list reddit_comment) (limit : Z) : state -> response * state :=
  endpoint (comments <- get_post_comments isoformat flattened limit ;;
            analyze_comments self comments).

(** ** Notions for the further properties *)

(** The analyzer with its transformer switched off. *)
Definition without_transformers (self : SentimentAnalyzer) : SentimentAnalyzer :=
  {| polarity_scores := polarity_scores self;
     stopwords := stopwords self;
     use_transformers := false;
     transformer_model := transformer_model self;
     nlp := nlp self |}.

(** Every character of [s] passes the test [p]. *)
Fixpoint all_chars (p : ascii -> bool) (s : string) : bool :=
  match s with
  | EmptyString => true
  | String c r => p c && all_chars p r
  end.

(** A character as the normalizer leaves them: a word or space character
    that [str.lower] does not change. *)
Definition normal_char (c : ascii) : bool :=
  keep_char c && Ascii.eqb (lower_char c) c.

(** An ASCII character. *)
Definition is_ascii (c : ascii) : bool := (code c <? 128)%nat.

(** An ASCII character as the normalizer leaves them: one of [a-z], [0-9],
    [_] and the ASCII whitespace. *)
Definition ascii_normal_char (c : ascii) : bool := normal_char c && is_ascii c.

(** [c] changes neither the store nor the log. *)
Definition pure_comp {A} (c : M A) : Prop := forall s, (c s).2 = s.

(** [c] does not write the store. *)
Definition read_only {A} (c : M A) : Prop := forall s, st_heap (c s).2 = st_heap s.

(** [c] writes no entry of a dict but those [K] allows. *)
Definition writes_within {A} (K : loc -> string -> Prop) (c : M A) : Prop :=
  forall s r k, ~ K r k -> deref (st_heap (c s).2) r !! k = deref (st_heap s) r !! k.

(** The two keys the pipeline attaches. *)
Definition sentiment_key (k : string) : Prop :=
  k = "sentiment" \/ k = "sentiment_category".

(** A call of [analyze_text] in the log. *)
Definition is_scorer_call (e : event) : bool :=
  match e with CallAnalyzeText _ => true | _ => false end.

(** The calls of [analyze_text] one post of the batch costs. *)
Definition scorer_calls (h : heap) (post : loc) : list event :=
  [CallAnalyzeText (dict_get (deref h post) "title" (PStr ""));
   CallAnalyzeText (dict_get (deref h post) "text" (PStr ""))].

(** A title or text with nothing to score: [None], or a string of space
    characters only. *)
Definition is_blank (v : pyval) : bool :=
  match v with
  | PNone => true
  | PStr t => all_space t
  | _ => false
  end.

(** The [text] of a comment, where present, is text-like. *)
Definition text_ok (d : dict) : Prop :=
  forall v, d !! "text" = Some v -> text_like v.

(** What the loop of [get_post_comments] leaves in a comment [d]: the
    score of its text, and the category of the compound of that score. *)
Definition comment_scored (self : SentimentAnalyzer) (d : dict) : Prop :=
  exists (sd : dict) (compound : pyval) (cat : string),
    returns (analyze_text self (dict_get d "text" (PStr ""))) (PDict sd)
    /\ d !! "sentiment" = Some (PDict sd)
    /\ sd !! "compound" = Some compound
    /\ returns (sentiment_category compound) cat
    /\ d !! "sentiment_category" = Some (PStr cat).

(** ** Further inputs to run the definitions on *)

(** A transformer that knows one text and fails on every other. *)
Definition demo_transformer (t : string) : option (string * float) :=
  if String.eqb t "great" then Some ("POSITIVE", 0.99%float) else None.

Definition demo_with_transformer : SentimentAnalyzer :=
  {| polarity_scores := demo_polarity;
     stopwords := {[ "the"; "a" ]};
     use_transformers := true;
     transformer_model := demo_transformer;
     nlp := demo_nlp |}.

(** A well-formed post followed by one whose title is the int 5. *)
Definition demo_bad_start : state :=
  State (list_to_map [(0%nat, list_to_map [("title", PStr "great")]);
                      (1%nat, list_to_map [("title", PInt 5)])]) [].

Definition demo_isoformat (t : float) : string := "1970-01-01T00:00:00".


Definition demo_comments : list reddit_comment :=
  [RedditComment "c0" "great" 3 0 "alice"; RedditComment "c1" "bad" 1 0 "bob"].

(** ** Strings *)

Ltac each_char c := destruct c as [[] [] [] [] [] [] [] []]; vm_compute; try reflexivity; try discriminate.

Lemma lower_char_idem c : lower_char (lower_char c) = lower_char c.
Proof. each_char c. Qed.
Lemma is_space_lower_char c : is_space (lower_char c) = is_space c.
Proof. each_char c. Qed.
Lemma keep_char_lower_char c : keep_char (lower_char c) = keep_char c.
Proof. each_char c. Qed.
Lemma lower_idem s : lower (lower s) = lower s.
Proof. induction s as [|c r IH]; simpl; [done|]. by rewrite lower_char_idem, IH. Qed.

Lemma filter_lower_filter s :
  filter_chars keep_char (lower (filter_chars keep_char s)) = lower (filter_chars keep_char s).
Proof.
  induction s as [|c r IH]; simpl; [done|].
  destruct (keep_char c) eqn:E; simpl; [|done].
  by rewrite keep_char_lower_char, E, IH.
Qed.

Lemma url_starts_space c r : is_space c = true -> url_starts (String c r) = false.
Proof. destruct c as [[] [] [] [] [] [] [] []]; vm_compute; try reflexivity; discriminate. Qed.

Lemma sub_url_skip r : sub_url true r = sub_url false (skip_nonspace r).
Proof.
  induction r as [|c r IH]; [done|].
  cbn [sub_url skip_nonspace]. destruct (is_space c) eqn:E; cbn [andb negb]; [|done].
  cbn [sub_url]. rewrite E. cbn [andb negb]. by rewrite url_starts_space.
Qed.

Lemma re_sub_url_unfold c r :
  re_sub_url (String c r) =
  if url_starts (String c r) then re_sub_url (skip_nonspace r)
  else String c (re_sub_url r).
Proof. unfold re_sub_url. cbn [sub_url andb]. by rewrite sub_url_skip. Qed.

Lemma re_sub_url_no_url s : has_url s = false -> re_sub_url s = s.
Proof.
  induction s as [|c r IH]; [done|]. intros H.
  cbn [has_url] in H. apply orb_false_iff in H as [H1 H2].
  rewrite re_sub_url_unfold, H1. by rewrite IH.
Qed.

Lemma preprocess_text_fixed s :
  has_url (lower (re_sub_special s)) = false ->
  preprocess_text (PStr (lower (re_sub_special s))) = lower (re_sub_special s).
Proof.
  intros H. unfold preprocess_text.
  destruct (String.eqb_spec (lower (re_sub_special s)) "") as [->|_]; [done|].
  rewrite (re_sub_url_no_url _ H). unfold re_sub_special.
  by rewrite filter_lower_filter, lower_idem.
Qed.

(** ** Topics *)

(** *** The counter *)

Lemma occurrences_snoc k l t :
  occurrences k (l ++ [t]) = (occurrences k l + (if decide (t = k) then 1 else 0))%nat.
Proof.
  unfold occurrences. rewrite filter_app, length_app. f_equal.
  rewrite filter_cons, filter_nil. by case_decide.
Qed.

Lemma occurrences_not_in k l : k ∉ l -> occurrences k l = 0%nat.
Proof.
  unfold occurrences. induction l as [|x l IH]; [done|]. intros H.
  apply not_elem_of_cons in H as [H1 H2]. rewrite filter_cons.
  case_decide; [congruence|]. by apply IH.
Qed.

Lemma first_index_lt k l : k ∈ l -> (first_index k l < length l)%nat.
Proof.
  induction l as [|x l IH]; [by intros ?%elem_of_nil|].
  intros H. simpl. destruct (String.eqb_spec x k) as [->|Hne]; [lia|].
  apply elem_of_cons in H as [->|H]; [done|]. specialize (IH H). lia.
Qed.

Lemma first_index_snoc_in k l t : k ∈ l -> first_index k (l ++ [t]) = first_index k l.
Proof.
  induction l as [|x l IH]; [by intros ?%elem_of_nil|].
  intros H. simpl. destruct (String.eqb_spec x k) as [->|Hne]; [done|].
  apply elem_of_cons in H as [->|H]; [done|]. by rewrite IH.
Qed.

Lemma first_index_snoc_new l t : t ∉ l -> first_index t (l ++ [t]) = length l.
Proof.
  induction l as [|x l IH]; simpl.
  - intros _. by rewrite String.eqb_refl.
  - intros H. apply not_elem_of_cons in H as [H1 H2].
    destruct (String.eqb_spec x t) as [->|Hne]; [done|]. by rewrite IH.
Qed.

Lemma first_index_sorted_snoc l t ks :
  (forall k, k ∈ ks -> k ∈ l) ->
  StronglySorted (fun a b => (first_index a l < first_index b l)%nat) ks ->
  StronglySorted
    (fun a b => (first_index a (l ++ [t]) < first_index b (l ++ [t]))%nat) ks.
Proof.
  intros Hsub Hord. induction Hord as [|a ks Hks IH Hall]; constructor.
  - apply IH. intros k Hk. apply Hsub. by right.
  - rewrite Forall_forall in Hall |- *. intros b Hb.
    rewrite !first_index_snoc_in; [by apply Hall| |].
    + apply Hsub. by right.
    + apply Hsub. by left.
Qed.

Lemma counter_add_keys t c :
  (counter_add t c).*1 = if decide (t ∈ c.*1) then c.*1 else c.*1 ++ [t].
Proof.
  induction c as [|[k n] c IH]; [done|].
  cbn [counter_add]. rewrite fmap_cons. cbn [fst].
  destruct (String.eqb_spec k t) as [->|Hne].
  - rewrite fmap_cons, decide_True; [done|by left].
  - rewrite fmap_cons, IH. cbn [fst]. destruct (decide (t ∈ c.*1)) as [Hin|Hout].
    + rewrite decide_True; [done|by right].
    + rewrite decide_False; [done|]. intros [->|?]%elem_of_cons; done.
Qed.

Lemma counter_add_counts l t c :
  NoDup c.*1 ->
  (t ∉ c.*1 -> occurrences t l = 0%nat) ->
  Forall (fun kn => kn.2 = occurrences kn.1 l) c ->
  Forall (fun kn => kn.2 = occurrences kn.1 (l ++ [t])) (counter_add t c).
Proof.
  induction c as [|[k n] c IH]; simpl; intros Hnd Hnew Hall.
  - constructor; [|done]. simpl. rewrite occurrences_snoc, decide_True by done.
    rewrite Hnew; [done|]. apply not_elem_of_nil.
  - apply NoDup_cons in Hnd as [Hk Hnd]. apply Forall_cons in Hall as [Hn Hall].
    simpl in Hn. destruct (String.eqb_spec k t) as [->|Hne].
    + constructor; simpl.
      * rewrite occurrences_snoc, decide_True by done. lia.
      * rewrite Forall_forall in Hall |- *. intros [k' n'] Hin. simpl.
        rewrite occurrences_snoc, decide_False.
        -- pose proof (Hall _ Hin) as Hc. simpl in Hc. lia.
        -- intros ->. apply Hk. apply list_elem_of_fmap. by exists (k', n').
    + constructor; simpl.
      * rewrite occurrences_snoc, decide_False by done. lia.
      * apply IH; [done| |done]. intros Hout. apply Hnew.
        intros [E|?]%elem_of_cons; [congruence|done].
Qed.

Lemma Counter_snoc l t : Counter (l ++ [t]) = counter_add t (Counter l).
Proof. unfold Counter. by rewrite fold_left_app. Qed.

(** The counter of [l]: one entry per distinct element, in the order of
    first occurrence, with the number of occurrences. *)
Lemma Counter_spec l :
  NoDup (Counter l).*1
  /\ (forall k, k ∈ (Counter l).*1 <-> k ∈ l)
  /\ Forall (fun kn => kn.2 = occurrences kn.1 l) (Counter l)
  /\ StronglySorted (fun a b => (first_index a l < first_index b l)%nat) (Counter l).*1.
Proof.
  induction l as [|t l (Hnd & Hkeys & Hcnt & Hord)] using rev_ind.
  - split_and!; [constructor|done|constructor|constructor].
  - rewrite Counter_snoc, counter_add_keys.
    assert (Hsorted : StronglySorted
              (fun a b => (first_index a (l ++ [t]) < first_index b (l ++ [t]))%nat)
              (Counter l).*1).
    { apply first_index_sorted_snoc; [|done]. intros k. apply Hkeys. }
    split_and!.
    + case_decide as Hin; [done|]. apply NoDup_app. split_and!; [done| |apply NoDup_singleton].
      intros k Hk ->%list_elem_of_singleton. done.
    + intros k. case_decide as Hin.
      * rewrite Hkeys, elem_of_app, list_elem_of_singleton.
        split; [tauto|]. intros [?| ->]; [done|]. by apply Hkeys.
      * by rewrite !elem_of_app, Hkeys.
    + apply counter_add_counts; [done| |done].
      intros Hout. apply occurrences_not_in. by rewrite <- Hkeys.
    + case_decide as Hin; [done|]. apply StronglySorted_app.
      split_and!; [|done|repeat constructor].
      intros a b Ha ->%list_elem_of_singleton.
      rewrite first_index_snoc_in by by apply Hkeys.
      rewrite first_index_snoc_new by by rewrite <- Hkeys.
      apply first_index_lt. by apply Hkeys.
Qed.

(** *** The stable sort *)

Lemma insert_desc_perm x l : insert_desc x l ≡ₚ x :: l.
Proof.
  induction l as [|y l IH]; [done|]. cbn [insert_desc].
  destruct (x.2 <? y.2)%nat; [|done]. rewrite IH. apply Permutation_swap.
Qed.

Lemma sort_desc_perm l : sort_desc l ≡ₚ l.
Proof.
  induction l as [|x l IH]; [done|]. cbn [sort_desc foldr].
  rewrite insert_desc_perm. by f_equiv.
Qed.

Section Ranking.

(** The candidates whose order of first occurrence breaks the ties. *)
Variable cands : list string.

Lemma insert_desc_sorted x l :
  StronglySorted (ranks_before cands) l ->
  Forall (fun y => (first_index x.1 cands < first_index y.1 cands)%nat) l ->
  StronglySorted (ranks_before cands) (insert_desc x l).
Proof.
  induction l as [|y l IH]; intros Hs Hx; cbn [insert_desc].
  - repeat constructor.
  - apply StronglySorted_inv in Hs as [Hs Hy]. apply Forall_cons in Hx as [Hxy Hx].
    destruct (Nat.ltb_spec x.2 y.2) as [Hlt|Hge].
    + constructor; [by apply IH|]. rewrite insert_desc_perm.
      constructor; [by left|done].
    + constructor; [by constructor|]. constructor.
      * unfold ranks_before. destruct (decide (y.2 = x.2)) as [E|E]; [right|left; lia]. done.
      * rewrite Forall_forall in Hy, Hx |- *. intros z Hz.
        destruct (Hy z Hz) as [Hz2|[Hz2 _]]; unfold ranks_before.
        -- left. lia.
        -- destruct (decide (z.2 = x.2)) as [E|E]; [right|left; lia].
           split; [done|by apply Hx].
Qed.

Lemma sort_desc_sorted l :
  StronglySorted (fun a b => (first_index a.1 cands < first_index b.1 cands)%nat) l ->
  StronglySorted (ranks_before cands) (sort_desc l).
Proof.
  induction 1 as [|x l Hl IH Hx]; cbn [sort_desc foldr]; [constructor|].
  apply insert_desc_sorted; [done|]. by rewrite sort_desc_perm.
Qed.

End Ranking.

Lemma StronglySorted_take {A} (R : relation A) n (l : list A) :
  StronglySorted R l -> StronglySorted R (take n l).
Proof.
  intros H. rewrite <- (take_drop n l) in H. by apply StronglySorted_app_1_l in H.
Qed.

Lemma StronglySorted_of_fmap {A B} (f : A -> B) (R : relation B) (l : list A) :
  StronglySorted R (f <$> l) -> StronglySorted (fun a b => R (f a) (f b)) l.
Proof.
  induction l as [|x l IH]; [constructor|]. rewrite fmap_cons.
  intros [Hl Hx]%StronglySorted_inv. constructor; [by apply IH|].
  by rewrite Forall_fmap in Hx.
Qed.

Lemma candidates_elem self d t :
  t ∈ candidates self d ->
  (lower t ∉ stopwords self)
  /\ ((t ∈ noun_chunks d /\ (length (split t) <= 3)%nat) \/ t ∈ ents d).
Proof.
  unfold candidates. rewrite elem_of_app, !list_elem_of_filter.
  unfold chunk_ok, ent_ok, is_stopword.
  intros [[H Hin]|[H Hin]].
  - apply andb_true_iff in H as [H1 H2]. apply negb_true_iff, bool_decide_eq_false in H1.
    apply Nat.leb_le in H2. auto.
  - apply negb_true_iff, bool_decide_eq_false in H. auto.
Qed.

Lemma occurrences_pos k l : k ∈ l -> (1 <= occurrences k l)%nat.
Proof.
  unfold occurrences. induction l as [|x l IH]; [by intros ?%elem_of_nil|].
  rewrite filter_cons. case_decide as E; [simpl; lia|].
  intros [->|H]%elem_of_cons; [done|]. by apply IH.
Qed.

(** C5. [extract_topics] returns at most [top_n] (topic, count) pairs; they
    are sorted most frequent first, ties in the order the topics were first
    met among the candidates; each count is the number of occurrences of
    the topic; no topic is a stopword once lowercased; a topic is a noun
    chunk of at most three words or a named entity; and what is left out
    ranks after everything returned. *)
Theorem extract_topics_top_n (self : SentimentAnalyzer) (texts : list pyval) (top_n : Z) :
  let d := nlp self (corpus texts) in
  let cands := candidates self d in
  let r := top_topics self texts top_n in
  (forall s, extract_topics self texts top_n s =
             (Ok (PList (map topic_entry r)),
              State (st_heap s) (st_log s ++ [CallExtractTopics texts; CallNlp (corpus texts)])))
  /\ (length r <= Z.to_nat top_n)%nat
  /\ StronglySorted (ranks_before cands) r
  /\ Forall (fun tc => tc.2 = occurrences tc.1 cands /\ (1 <= tc.2)%nat
                       /\ (lower tc.1 ∉ stopwords self)
                       /\ ((tc.1 ∈ noun_chunks d /\ (length (split tc.1) <= 3)%nat)
                           \/ tc.1 ∈ ents d)) r
  /\ exists rest, r ++ rest ≡ₚ Counter cands
                  /\ forall a b, a ∈ r -> b ∈ rest -> ranks_before cands a b.
Proof.
  intros d cands r.
  destruct (Counter_spec cands) as (Hnd & Hkeys & Hcnt & Hord).
  assert (Hsorted : StronglySorted (ranks_before cands) (sort_desc (Counter cands))).
  { apply sort_desc_sorted.
    by apply (StronglySorted_of_fmap fst
                (fun a b => (first_index a cands < first_index b cands)%nat)). }
  split_and!.
  - intros [h log]. unfold extract_topics, bind, emit, ret. simpl.
    by rewrite <- app_assoc.
  - unfold r, top_topics, most_common. rewrite length_take. lia.
  - by apply StronglySorted_take.
  - apply Forall_forall. intros [t n] Hin.
    assert (Hc : (t, n) ∈ Counter cands).
    { rewrite <- sort_desc_perm. by apply (subseteq_take (Z.to_nat top_n)). }
    assert (Ht : t ∈ cands).
    { apply Hkeys, list_elem_of_fmap. by exists (t, n). }
    rewrite Forall_forall in Hcnt. pose proof (Hcnt _ Hc) as Hn. simpl in Hn |- *.
    destruct (candidates_elem self d t Ht) as [Hstop Hkind].
    split_and!; [done| |done|done]. rewrite Hn. by apply occurrences_pos.
  - exists (drop (Z.to_nat top_n) (sort_desc (Counter cands))). split.
    + unfold r, top_topics, most_common. by rewrite take_drop, sort_desc_perm.
    + unfold r, top_topics, most_common. intros a b Ha Hb.
      rewrite <- (take_drop (Z.to_nat top_n)) in Hsorted.
      by apply (StronglySorted_app_1_elem_of _ _ _ _ _ Hsorted).
Qed.

(** ** Scoring *)

(** *** Computations *)

Lemma bind_Ok {A B} (c : M A) (k : A -> M B) s b s' :
  bind c k s = (Ok b, s') -> exists a s1, c s = (Ok a, s1) /\ k a s1 = (Ok b, s').
Proof. unfold bind. destruct (c s) as [[a|e] s1]; [eauto|discriminate]. Qed.

Lemma bind_Ok_intro {A B} (c : M A) (k : A -> M B) s a s1 :
  c s = (Ok a, s1) -> bind c k s = k a s1.
Proof. unfold bind. by intros ->. Qed.

Ltac inv_bind H :=
  let a := fresh "a" in let s1 := fresh "s" in let H1 := fresh H in
  apply bind_Ok in H as (a & s1 & H1 & H).


Lemma analyze_text_inv self v s r s' :
  analyze_text self v s = (Ok r, s') ->
  st_heap s' = st_heap s
  /\ exists d c, r = PDict d /\ d !! "compound" = Some c /\ is_score c.
Proof.
  unfold analyze_text, bind, emit, get_heap, ret, raise. simpl.
  destruct (truthy (st_heap s) v); simpl.
  - destruct v; try discriminate.
    destruct (String.eqb (strip s0) ""); simpl.
    + intros [= <- <-]. split; [done|]. exists zero_scores, (PInt 0). split_and!; [done|done|by left].
    + destruct (use_transformers self); simpl.
      * destruct (transformer_model self (take_prefix 512 s0)) as [[label score]|]; simpl;
          intros [= <- <-]; (split; [done|]); eexists _, _; (split_and!; [done| |right; eauto]); done.
      * intros [= <- <-]. split; [done|]. eexists _, _. split_and!; [done| |right; eauto]. done.
  - intros [= <- <-]. split; [done|]. exists zero_scores, (PInt 0). split_and!; [done|done|by left].
Qed.

Lemma is_score_num c : is_score c -> exists n, num_of c = Some n.
Proof. intros [->|[f ->]]; simpl; eauto. Qed.

Lemma subscript_dict d k v s : d !! k = Some v -> subscript (PDict d) k s = (Ok v, s).
Proof. unfold subscript. by intros ->. Qed.

Lemma py_mul_float c v n s :
  num_of v = Some n -> py_mul (PFloat c) v s = (Ok (PFloat (c * to_float n)), s).
Proof. unfold py_mul, arith. simpl. intros ->. by destruct n. Qed.

Lemma py_add_float a b s : py_add (PFloat a) (PFloat b) s = (Ok (PFloat (a + b)), s).
Proof. done. Qed.

Lemma sentiment_category_total c s :
  exists cat, sentiment_category (PFloat c) s = (Ok cat, s)
              /\ (cat = "positive" \/ cat = "negative" \/ cat = "neutral").
Proof.
  unfold sentiment_category, py_le, py_ge, bind, ret. simpl.
  destruct (0.05 <=? c)%float; [eauto|]. destruct (c <=? -0.05)%float; eauto.
Qed.

Lemma set_item_heap r k v s :
  set_item r k v s = (Ok tt, State (<[r := <[k := v]> (deref (st_heap s) r)]> (st_heap s)) (st_log s)).
Proof. done. Qed.

Lemma deref_insert_eq (h : heap) r d : deref (<[r := d]> h) r = d.
Proof. unfold deref. by rewrite lookup_total_insert_eq. Qed.

Lemma deref_insert_ne (h : heap) r r' d : r ≠ r' -> deref (<[r := d]> h) r' = deref h r'.
Proof. unfold deref. intros. by rewrite lookup_total_insert_ne. Qed.

(** One turn of the loop: what it returns and what it writes. *)
Lemma score_post_inv self p s s' :
  score_post self p s = (Ok tt, s') ->
  exists (ts cs : pyval) (tc cc : float) (cat : string),
    returns (analyze_text self (dict_get (deref (st_heap s) p) "title" (PStr ""))) ts
    /\ returns (analyze_text self (dict_get (deref (st_heap s) p) "text" (PStr ""))) cs
    /\ compound_of ts = Some tc
    /\ compound_of cs = Some cc
    /\ returns (sentiment_category (PFloat (0.7 * tc + 0.3 * cc))) cat
    /\ st_heap s' =
       <[p := <["sentiment_category" := PStr cat]>
                (<["sentiment" := sentiment_record ts cs (PFloat (0.7 * tc + 0.3 * cc))]>
                   (deref (st_heap s) p))]> (st_heap s).
Proof.
  unfold score_post. intros H.
  inv_bind H. unfold get_heap in H0. injection H0 as <- <-.
  inv_bind H. rename a into ts. destruct (analyze_text_inv _ _ _ _ _ H0) as (Hh1 & dt & ct & -> & Hct & Sct).
  inv_bind H. unfold get_heap in H1. injection H1 as <- <-.
  inv_bind H. rename a into cs. destruct (analyze_text_inv _ _ _ _ _ H1) as (Hh2 & dc & cc & -> & Hcc & Scc).
  destruct (is_score_num _ Sct) as [nt Hnt]. destruct (is_score_num _ Scc) as [nc Hnc].
  rewrite (bind_Ok_intro _ _ _ _ _ (subscript_dict _ _ _ _ Hct)) in H.
  rewrite (bind_Ok_intro _ _ _ _ _ (py_mul_float _ _ _ _ Hnt)) in H.
  rewrite (bind_Ok_intro _ _ _ _ _ (subscript_dict _ _ _ _ Hcc)) in H.
  rewrite (bind_Ok_intro _ _ _ _ _ (py_mul_float _ _ _ _ Hnc)) in H.
  rewrite (bind_Ok_intro _ _ _ _ _ (py_add_float _ _ _)) in H.
  rewrite (bind_Ok_intro _ _ _ _ _ (set_item_heap _ _ _ _)) in H.
  destruct (sentiment_category_total (0.7 * to_float nt + 0.3 * to_float nc)
              (State (<[p := <["sentiment" := sentiment_record (PDict dt) (PDict dc)
                              (PFloat (0.7 * to_float nt + 0.3 * to_float nc))]>
                              (deref (st_heap s1) p)]> (st_heap s1)) (st_log s1)))
    as (cat & Hcat & _).
  rewrite (bind_Ok_intro _ _ _ _ _ Hcat) in H.
  rewrite set_item_heap in H. injection H as <-. simpl.
  exists (PDict dt), (PDict dc), (to_float nt), (to_float nc), cat.
  rewrite Hh1 in Hh2.
  split_and!.
  - by eexists _, _.
  - rewrite Hh1 in H1. by eexists _, _.
  - simpl. by rewrite Hct, Hnt.
  - simpl. by rewrite Hcc, Hnc.
  - by eexists _, _.
  - rewrite Hh2, deref_insert_eq, insert_insert_eq. done.
Qed.

Lemma dict_get_insert_ne (d : dict) k k' v dflt :
  k ≠ k' -> dict_get (<[k := v]> d) k' dflt = dict_get d k' dflt.
Proof. unfold dict_get. intros. by rewrite lookup_insert_ne. Qed.

Lemma score_post_scored self p s s' :
  score_post self p s = (Ok tt, s') -> scored self (deref (st_heap s') p).
Proof.
  intros (ts & cs & tc & cc & cat & Ht & Hc & Htc & Hcc & Hcat & ->)%score_post_inv.
  rewrite deref_insert_eq. exists ts, cs, tc, cc, cat.
  rewrite !dict_get_insert_ne by done.
  split_and!; try done.
  - by rewrite lookup_insert_ne, lookup_insert_eq.
  - by rewrite lookup_insert_eq.
Qed.

(** A turn of the loop writes the two sentiment keys of its post and
    nothing else. *)
Lemma score_post_frame self p s s' :
  score_post self p s = (Ok tt, s') ->
  (forall r, r ≠ p -> deref (st_heap s') r = deref (st_heap s) r)
  /\ (forall k, k ≠ "sentiment" -> k ≠ "sentiment_category" ->
                deref (st_heap s') p !! k = deref (st_heap s) p !! k).
Proof.
  intros (ts & cs & tc & cc & cat & _ & _ & _ & _ & _ & ->)%score_post_inv. split.
  - intros r Hr. by rewrite deref_insert_ne.
  - intros k H1 H2. by rewrite deref_insert_eq, !lookup_insert_ne.
Qed.

Lemma for_each_frame self posts s s' :
  for_each (score_post self) posts s = (Ok tt, s') ->
  (forall r, r ∉ posts -> deref (st_heap s') r = deref (st_heap s) r)
  /\ (forall r k, k ≠ "sentiment" -> k ≠ "sentiment_category" ->
                  deref (st_heap s') r !! k = deref (st_heap s) r !! k).
Proof.
  revert s. induction posts as [|p posts IH]; intros s H; cbn [for_each] in H.
  - by injection H as <-.
  - inv_bind H. destruct a. destruct (score_post_frame _ _ _ _ H0) as [Hf1 Hf2].
    destruct (IH _ H) as [Hg1 Hg2]. split.
    + intros r [Hne Hr]%not_elem_of_cons. rewrite Hg1, Hf1; done.
    + intros r k H1 H2. rewrite Hg2 by done.
      destruct (decide (r = p)) as [->|Hne]; [by apply Hf2|]. by rewrite Hf1.
Qed.

Lemma for_each_scored self posts s s' :
  for_each (score_post self) posts s = (Ok tt, s') ->
  forall r, r ∈ posts -> scored self (deref (st_heap s') r).
Proof.
  revert s. induction posts as [|p posts IH]; intros s H r Hr; cbn [for_each] in H.
  - by apply elem_of_nil in Hr.
  - inv_bind H. destruct a.
    destruct (decide (r ∈ posts)) as [Hin|Hout]; [by eapply IH|].
    apply elem_of_cons in Hr as [->|?]; [|done].
    destruct (for_each_frame _ _ _ _ H) as [Hg _]. rewrite Hg by done.
    by eapply score_post_scored.
Qed.

Lemma extract_topics_run self texts top_n s :
  extract_topics self texts top_n s =
  (Ok (PList (map topic_entry (top_topics self texts top_n))),
   State (st_heap s) (st_log s ++ [CallExtractTopics texts; CallNlp (corpus texts)])).
Proof. destruct s. unfold extract_topics, bind, emit, ret. simpl. by rewrite <- app_assoc. Qed.

Lemma float_of_int_0 : float_of_int 0 = 0%float.
Proof. reflexivity. Qed.

Lemma compound_value_num v c :
  compound_value v = Some c -> exists n, num_of v = Some n /\ to_float n = c.
Proof.
  destruct v as [| |z|f| | | |]; try discriminate.
  - destruct z; try discriminate. intros [= <-]. by exists (NInt 0).
  - intros [= <-]. by exists (NFloat f).
Qed.

Lemma py_add_score acc v a c s :
  compound_value acc = Some a -> compound_value v = Some c ->
  exists acc', py_add acc v s = (Ok acc', s) /\ compound_value acc' = Some (a + c)%float.
Proof.
  destruct acc as [| |[| |]|fa| | | |]; try discriminate;
  destruct v as [| |[| |]|fv| | | |]; try discriminate;
  intros [= <-] [= <-]; eexists; (split; [reflexivity|]); reflexivity.
Qed.

Lemma sum_from_scores acc vs a cs s :
  compound_value acc = Some a ->
  Forall2 (fun v c => compound_value v = Some c) vs cs ->
  exists total, sum_from acc vs s = (Ok total, s)
                /\ compound_value total = Some (fold_left PrimFloat.add cs a).
Proof.
  intros Ha Hvs. revert acc a Ha. induction Hvs as [|v c vs cs Hv Hvs IH]; intros acc a Ha.
  - by exists acc.
  - destruct (py_add_score acc v a c s Ha Hv) as (acc' & Hadd & Hacc').
    destruct (IH _ _ Hacc') as (total & Hsum & Htotal).
    exists total. split; [|done]. cbn [sum_from]. by rewrite (bind_Ok_intro _ _ _ _ _ Hadd).
Qed.

Lemma map_m_compounds posts cs s :
  Forall2 (fun r c => item_compound (deref (st_heap s) r) = Some c) posts cs ->
  exists vs,
    map_m (fun post => sd <- subscript (PRef post) "sentiment" ;; subscript sd "compound")
          posts s = (Ok vs, s)
    /\ Forall2 (fun v c => compound_value v = Some c) vs cs.
Proof.
  induction 1 as [|r c posts cs Hr Hrest (vs & Hvs & Hall)].
  - by exists [].
  - unfold item_compound in Hr.
    destruct (deref (st_heap s) r !! "sentiment") as [[| | | | | |sd|]|] eqn:Hs; try discriminate.
    destruct (sd !! "compound") as [v|] eqn:Hv; [|discriminate].
    exists (v :: vs). split; [|by constructor].
    cbn [map_m]. unfold bind at 1 2. unfold subscript at 1. unfold bind at 1, get_heap.
    rewrite Hs. unfold ret at 1. rewrite (subscript_dict _ _ _ _ Hv).
    unfold bind at 1. by rewrite Hvs.
Qed.

Lemma map_m_categories posts cats s :
  Forall2 (fun r c => item_category (deref (st_heap s) r) = Some c) posts cats ->
  map_m (fun post => subscript (PRef post) "sentiment_category") posts s
  = (Ok (PStr <$> cats), s)
  /\ Forall (fun c => is_category c = true) cats.
Proof.
  induction 1 as [|r c posts cats Hr Hrest [Hvs Hall]].
  - done.
  - unfold item_category in Hr.
    destruct (deref (st_heap s) r !! "sentiment_category") as [[| | | |c'| | |]|] eqn:Hs;
      try discriminate.
    destruct (is_category c') eqn:Hc; [|discriminate]. injection Hr as ->.
    split; [|by constructor].
    cbn [map_m]. unfold bind at 1. unfold subscript at 1. unfold bind at 1, get_heap.
    rewrite Hs. unfold ret at 1. unfold bind at 1. by rewrite Hvs.
Qed.

Lemma py_count_strs c cats : py_count c (PStr <$> cats) = occurrences c cats.
Proof.
  unfold py_count, occurrences. induction cats as [|x cats IH]; [done|].
  rewrite fmap_cons, !filter_cons. cbn [is_str].
  destruct (String.eqb_spec x c) as [->|Hne].
  - rewrite !decide_True by done. simpl. by rewrite IH.
  - rewrite !decide_False by done. done.
Qed.


Lemma py_truediv_len v a n s :
  compound_value v = Some a -> n ≠ 0%nat ->
  py_truediv v (PInt (Z.of_nat n)) s = (Ok (PFloat (a / float_of_int (Z.of_nat n))), s).
Proof.
  intros (m & Hm & <-)%compound_value_num Hn. unfold py_truediv. rewrite Hm. simpl.
  destruct (Z.eqb_spec (Z.of_nat n) 0); [lia|done].
Qed.

Lemma py_truediv_count k n s :
  n ≠ 0%nat ->
  py_truediv (PInt (Z.of_nat k)) (PInt (Z.of_nat n)) s = (Ok (PFloat (fraction k n)), s).
Proof.
  intros Hn. unfold py_truediv. simpl. destruct (Z.eqb_spec (Z.of_nat n) 0); [lia|done].
Qed.

Lemma calculate_overall_sentiment_run self posts cs cats s :
  posts ≠ [] ->
  Forall2 (fun r c => item_compound (deref (st_heap s) r) = Some c) posts cs ->
  Forall2 (fun r c => item_category (deref (st_heap s) r) = Some c) posts cats ->
  calculate_overall_sentiment self posts s = (Ok (PDict (overall_record cs cats)), s).
Proof.
  intros Hne Hcs Hcats.
  destruct (map_m_compounds _ _ _ Hcs) as (vs & Hvs & Hall).
  destruct (map_m_categories _ _ _ Hcats) as [Hks _].
  destruct (sum_from_scores (PInt 0) vs 0%float cs s eq_refl Hall) as (total & Hsum & Htotal).
  assert (Hlen : length vs = length cs) by by eapply Forall2_length.
  assert (Hlen' : length posts = length cats) by by eapply Forall2_length.
  assert (Hlen'' : length posts = length cs) by by eapply Forall2_length.
  assert (Hn : length posts ≠ 0%nat) by by destruct posts.
  unfold calculate_overall_sentiment. destruct posts as [|p posts]; [done|].
  rewrite (bind_Ok_intro _ _ _ _ _ Hvs), (bind_Ok_intro _ _ _ _ _ Hks).
  unfold py_sum. rewrite (bind_Ok_intro _ _ _ _ _ Hsum).
  unfold py_len. rewrite length_fmap, !py_count_strs, Hlen.
  assert (Hcs0 : length cs ≠ 0%nat) by lia.
  assert (Hcats0 : length cats ≠ 0%nat) by lia.
  rewrite (bind_Ok_intro _ _ _ _ _ (py_truediv_len _ _ _ _ Htotal Hcs0)).
  rewrite !(bind_Ok_intro _ _ _ _ _ (py_truediv_count _ _ _ Hcats0)).
  done.
Qed.



(** *** The item scorer *)

Lemma lstrip_all_space s : all_space s = true -> lstrip s = "".
Proof.
  induction s as [|c r IH]; [done|]. cbn [all_space lstrip].
  intros [Hc Hr]%andb_true_iff. rewrite Hc. by apply IH.
Qed.

Lemma strip_all_space s : all_space s = true -> strip s = "".
Proof. intros H. unfold strip. by rewrite lstrip_all_space. Qed.

Lemma analyze_text_zero self s st :
  strip s = "" ->
  analyze_text self (PStr s) st =
  (Ok (PDict zero_scores), State (st_heap st) (st_log st ++ [CallAnalyzeText (PStr s)])).
Proof.
  intros H. unfold analyze_text, bind, emit, get_heap, ret. simpl.
  destruct (negb (String.eqb s "")); simpl; [|done]. by rewrite H.
Qed.

Lemma analyze_text_none self st :
  analyze_text self PNone st =
  (Ok (PDict zero_scores), State (st_heap st) (st_log st ++ [CallAnalyzeText PNone])).
Proof. done. Qed.

(** On a text-like value the scorer returns, and neither its result nor
    what it logs depends on the store. *)
Lemma analyze_text_text_like self v :
  text_like v ->
  exists r evs, forall st : state,
    analyze_text self v st = (Ok r, State (st_heap st) (st_log st ++ evs)).
Proof.
  intros [->|[s ->]].
  - eexists _, _. intros. apply analyze_text_none.
  - unfold analyze_text, bind, emit, get_heap, ret. simpl.
    destruct (negb (String.eqb s "")); simpl; [|by eexists _, _].
    destruct (String.eqb (strip s) ""); simpl; [by eexists _, _|].
    destruct (use_transformers self); simpl; [|eexists _, _; intros; by rewrite <- app_assoc].
    destruct (transformer_model self (take_prefix 512 s)) as [[label score]|]; simpl;
      eexists _, _; intros; by rewrite <- !app_assoc.
Qed.

(** C7. On an empty or whitespace-only text the item scorer returns the zero
    record: its four scores are 0 and it has no transformer field; the call
    is the only thing logged, so neither VADER nor the transformer is
    called. *)
Theorem analyze_text_blank (self : SentimentAnalyzer) (s : string) (st : state) :
  all_space s = true ->
  analyze_text self (PStr s) st =
    (Ok (PDict zero_scores), State (st_heap st) (st_log st ++ [CallAnalyzeText (PStr s)]))
  /\ zero_scores !! "compound" = Some (PInt 0)
  /\ zero_scores !! "pos" = Some (PInt 0)
  /\ zero_scores !! "neu" = Some (PInt 0)
  /\ zero_scores !! "neg" = Some (PInt 0)
  /\ dom zero_scores = ({["compound"; "pos"; "neu"; "neg"]} : gset string).
Proof.
  intros H. split; [by apply analyze_text_zero, strip_all_space|].
  split_and!; [done..|].
  unfold zero_scores. cbn [list_to_map foldr uncurry]. rewrite !dom_insert_L, dom_empty_L.
  set_solver.
Qed.

(** *** The category of a compound score *)

Lemma not_both_thresholds (c : float) :
  (c <=? -0.05)%float = true -> (0.05 <=? c)%float = false.
Proof.
  rewrite 2 leb_spec. destruct (Prim2SF c) as [[]|[]| |[] m e].
  all: set (lo := Prim2SF (-0.05)); set (hi := Prim2SF 0.05); vm_compute in lo, hi; subst lo hi.
  all: unfold SFleb, SFcompare; congruence.
Qed.

(** C3. The category of a compound score is positive from 0.05 up, negative
    from -0.05 down and neutral otherwise; 0.05 and 0.0500001 are positive,
    -0.05 is negative, 0.0 is neutral. *)
Theorem sentiment_category_thresholds (c : float) (s : state) :
  exists cat,
    sentiment_category (PFloat c) s = (Ok cat, s)
    /\ ((0.05 <=? c)%float = true -> cat = "positive")
    /\ ((c <=? -0.05)%float = true -> cat = "negative")
    /\ ((0.05 <=? c)%float = false -> (c <=? -0.05)%float = false -> cat = "neutral")
    /\ sentiment_category (PFloat 0.05) s = (Ok "positive", s)
    /\ sentiment_category (PFloat (-0.05)) s = (Ok "negative", s)
    /\ sentiment_category (PFloat 0) s = (Ok "neutral", s)
    /\ sentiment_category (PFloat 0.0500001) s = (Ok "positive", s).
Proof.
  pose proof (not_both_thresholds c) as Hex.
  unfold sentiment_category, py_le, py_ge, bind, ret. simpl.
  destruct (0.05 <=? c)%float eqn:Hpos.
  - exists "positive". split_and!; try done. intros Hneg. by specialize (Hex Hneg).
  - destruct (c <=? -0.05)%float eqn:Hneg.
    + exists "negative". by split_and!.
    + exists "neutral". by split_and!.
Qed.

(** *** The batch aggregator *)

Lemma scored_annotated self d :
  scored self d ->
  exists c cat, item_compound d = Some c /\ item_category d = Some cat.
Proof.
  intros (ts & cs & tc & cc & cat & _ & _ & _ & _ & Hs & (s & s' & Hcat) & Hc).
  exists (0.7 * tc + 0.3 * cc)%float, cat. unfold item_compound, item_category.
  rewrite Hs, Hc. split; [done|].
  destruct (sentiment_category_total (0.7 * tc + 0.3 * cc) s) as (cat' & Hcat' & Hin).
  rewrite Hcat in Hcat'. injection Hcat' as -> _.
  by destruct Hin as [->|[->| ->]].
Qed.

Lemma Forall2_of_exists {A B} (P : A -> B -> Prop) (l : list A) :
  (forall x, x ∈ l -> exists y, P x y) -> exists k, Forall2 P l k.
Proof.
  induction l as [|x l IH]; intros H; [by exists []|].
  destruct (H x) as [y Hy]; [by left|].
  destruct IH as [k Hk]; [intros z Hz; apply H; by right|].
  exists (y :: k). by constructor.
Qed.

(** What [analyze_posts] returns for a batch that is not empty, once its
    loop is through. *)
Lemma analyze_posts_after_loop self posts s s1 :
  posts ≠ [] ->
  for_each (score_post self) posts s = (Ok tt, s1) ->
  exists cs cats,
    let texts := map (fun post => dict_get (deref (st_heap s1) post) "title" (PStr "")) posts
                 ++ map (fun post => dict_get (deref (st_heap s1) post) "text" (PStr "")) posts in
    Forall2 (fun r c => item_compound (deref (st_heap s1) r) = Some c) posts cs
    /\ Forall2 (fun r c => item_category (deref (st_heap s1) r) = Some c) posts cats
    /\ analyze_posts self posts s =
       (Ok (PDict (list_to_map
                     [("posts", PList (map PRef posts));
                      ("topics", PList (map topic_entry (top_topics self texts 10)));
                      ("overall_sentiment", PDict (overall_record cs cats))])),
        State (st_heap s1)
              (st_log s1 ++ [CallExtractTopics texts; CallNlp (corpus texts)])).
Proof.
  intros Hne Hloop.
  pose proof (for_each_scored _ _ _ _ Hloop) as Hscored.
  destruct (Forall2_of_exists
              (fun r c => item_compound (deref (st_heap s1) r) = Some c) posts) as [cs Hcs].
  { intros r Hr. destruct (scored_annotated _ _ (Hscored r Hr)) as (c & cat & Hc & _). eauto. }
  destruct (Forall2_of_exists
              (fun r c => item_category (deref (st_heap s1) r) = Some c) posts) as [cats Hcats].
  { intros r Hr. destruct (scored_annotated _ _ (Hscored r Hr)) as (c & cat & _ & Hc). eauto. }
  exists cs, cats. split_and!; [done|done|].
  unfold analyze_posts. destruct posts as [|p posts]; [done|].
  rewrite (bind_Ok_intro _ _ _ _ _ Hloop).
  unfold bind at 1, get_heap.
  rewrite (bind_Ok_intro _ _ _ _ _ (extract_topics_run _ _ _ _)).
  match goal with
  | |- context [bind (calculate_overall_sentiment _ _) _ ?st] =>
      rewrite (bind_Ok_intro _ _ _ _ _
                 (calculate_overall_sentiment_run self _ cs cats st Hne Hcs Hcats))
  end.
  done.
Qed.

Lemma analyze_posts_inv self posts s v s' :
  posts ≠ [] ->
  analyze_posts self posts s = (Ok v, s') ->
  exists s1, for_each (score_post self) posts s = (Ok tt, s1) /\ st_heap s' = st_heap s1.
Proof.
  intros Hne H. unfold analyze_posts in H. destruct posts as [|p posts]; [done|].
  inv_bind H. destruct a. exists s0. split; [done|].
  destruct (analyze_posts_after_loop self (p :: posts) s s0 Hne H0) as (cs & cats & _ & _ & Hrun).
  unfold analyze_posts in Hrun. rewrite (bind_Ok_intro _ _ _ _ _ H0) in Hrun.
  rewrite Hrun in H. by injection H as _ <-.
Qed.

Lemma fields_ok_get d k :
  fields_ok d -> k = "title" \/ k = "text" -> text_like (dict_get d k (PStr "")).
Proof.
  intros Hd Hk. unfold dict_get. destruct (d !! k) as [v|] eqn:E.
  - by eapply Hd.
  - right. by exists "".
Qed.

Lemma score_post_ok self p s :
  fields_ok (deref (st_heap s) p) -> exists s', score_post self p s = (Ok tt, s').
Proof.
  intros Hd.
  destruct (analyze_text_text_like self _ (fields_ok_get _ "title" Hd (or_introl eq_refl)))
    as (ts & evt & Ht).
  destruct (analyze_text_text_like self _ (fields_ok_get _ "text" Hd (or_intror eq_refl)))
    as (cs & evc & Hc).
  destruct (analyze_text_inv _ _ _ _ _ (Ht s)) as (_ & dt & ct & -> & Hct & Sct).
  destruct (analyze_text_inv _ _ _ _ _ (Hc s)) as (_ & dc & cc & -> & Hcc & Scc).
  destruct (is_score_num _ Sct) as [nt Hnt]. destruct (is_score_num _ Scc) as [nc Hnc].
  unfold score_post. unfold bind at 1, get_heap.
  rewrite (bind_Ok_intro _ _ _ _ _ (Ht s)). unfold bind at 1. cbn [st_heap].
  rewrite (bind_Ok_intro _ _ _ _ _ (Hc _)).
  rewrite (bind_Ok_intro _ _ _ _ _ (subscript_dict _ _ _ _ Hct)).
  rewrite (bind_Ok_intro _ _ _ _ _ (py_mul_float _ _ _ _ Hnt)).
  rewrite (bind_Ok_intro _ _ _ _ _ (subscript_dict _ _ _ _ Hcc)).
  rewrite (bind_Ok_intro _ _ _ _ _ (py_mul_float _ _ _ _ Hnc)).
  rewrite (bind_Ok_intro _ _ _ _ _ (py_add_float _ _ _)).
  rewrite (bind_Ok_intro _ _ _ _ _ (set_item_heap _ _ _ _)).
  match goal with
  | |- context [bind (sentiment_category (PFloat ?c)) _ ?st] =>
      destruct (sentiment_category_total c st) as (cat & Hcat & _);
      rewrite (bind_Ok_intro _ _ _ _ _ Hcat)
  end.
  rewrite set_item_heap. eauto.
Qed.

Lemma for_each_ok self posts s :
  (forall r, r ∈ posts -> fields_ok (deref (st_heap s) r)) ->
  exists s', for_each (score_post self) posts s = (Ok tt, s').
Proof.
  revert s. induction posts as [|p posts IH]; intros s H; cbn [for_each].
  - by eexists.
  - destruct (score_post_ok self p s) as [s1 H1]; [apply H; by left|].
    rewrite (bind_Ok_intro _ _ _ _ _ H1). apply IH. intros r Hr k v Hk Hv.
    destruct (score_post_frame _ _ _ _ H1) as [Hf1 Hf2].
    apply (H r ltac:(by right) k v Hk).
    rewrite <- Hv. destruct (decide (r = p)) as [->|Hne].
    + symmetry. apply Hf2; by destruct Hk as [-> | ->].
    + by rewrite Hf1.
Qed.

(** For a batch that is not empty the result carries the list of posts it
    was given, and the loop has written nothing but the two sentiment keys. *)
Lemma analyze_posts_keeps_order self posts s v s' :
  posts ≠ [] ->
  analyze_posts self posts s = (Ok v, s') ->
  (exists d, v = PDict d /\ d !! "posts" = Some (PList (map PRef posts)))
  /\ (forall r k, k ≠ "sentiment" -> k ≠ "sentiment_category" ->
                  deref (st_heap s') r !! k = deref (st_heap s) r !! k).
Proof.
  intros Hne H. destruct (analyze_posts_inv _ _ _ _ _ Hne H) as (s1 & Hloop & Hh).
  destruct (analyze_posts_after_loop _ _ _ _ Hne Hloop) as (cs & cats & _ & _ & Hrun).
  rewrite Hrun in H. injection H as <- <-. split.
  - by eexists.
  - by destruct (for_each_frame _ _ _ _ Hloop).
Qed.

(** C1 (the code at the empty batch). [analyze_posts] on no posts returns
    the bare list [[]], which is not the empty batch result; it leaves the
    store and the log as they were, so it calls neither the item scorer nor
    the topic extractor. *)
Theorem analyze_posts_empty (self : SentimentAnalyzer) (s : state) :
  analyze_posts self [] s = (Ok (PList []), s)
  /\ PList [] <> empty_batch_result.
Proof. split; [reflexivity|discriminate]. Qed.


(** C2. After [analyze_posts] has returned, every post of the batch carries
    a sentiment record whose compound is 0.7 times the compound of the score
    of its title plus 0.3 times the compound of the score of its text, both
    scores being what [analyze_text] returns on them. *)
Theorem weighted_compound
    (self : SentimentAnalyzer) (posts : list loc) (s s' : state) (v : pyval) :
  analyze_posts self posts s = (Ok v, s') ->
  forall r, r ∈ posts ->
    exists (ts cs : pyval) (tc cc : float),
      returns (analyze_text self (dict_get (deref (st_heap s) r) "title" (PStr ""))) ts
      /\ returns (analyze_text self (dict_get (deref (st_heap s) r) "text" (PStr ""))) cs
      /\ compound_of ts = Some tc
      /\ compound_of cs = Some cc
      /\ deref (st_heap s') r !! "sentiment"
         = Some (sentiment_record ts cs (PFloat (0.7 * tc + 0.3 * cc))).
Proof.
  intros H r Hr. assert (Hne : posts ≠ []) by (intros ->; by apply elem_of_nil in Hr).
  destruct (analyze_posts_inv _ _ _ _ _ Hne H) as (s1 & Hloop & Hh).
  destruct (for_each_scored _ _ _ _ Hloop r Hr)
    as (ts & cs & tc & cc & cat & Ht & Hc & Htc & Hcc & Hs & _ & _).
  destruct (for_each_frame _ _ _ _ Hloop) as [_ Hf].
  unfold dict_get in Ht, Hc. rewrite !Hf in Ht, Hc by done.
  exists ts, cs, tc, cc. rewrite Hh. by split_and!.
Qed.

Lemma analyze_text_empty_returns self ts :
  returns (analyze_text self (PStr "")) ts -> ts = PDict zero_scores.
Proof.
  intros (s & s' & H). rewrite (analyze_text_zero self "" s eq_refl) in H. by injection H.
Qed.

(** C9. When the [title] and [text] of the posts are strings or [None]
    wherever they are present, [analyze_posts] returns and does not raise.
    A post without [title] (without [text]) is read as having the empty
    string there: that part of its sentiment record is the zero record, the
    score of the empty string, and it enters the compound as 0; the empty
    string also stands for it in the texts given to the topic extractor. *)
Theorem missing_fields_read_as_empty
    (self : SentimentAnalyzer) (posts : list loc) (s : state) :
  (forall r, r ∈ posts -> fields_ok (deref (st_heap s) r)) ->
  exists (v : pyval) (s' : state),
    analyze_posts self posts s = (Ok v, s')
    /\ (forall r, r ∈ posts ->
          exists (ts cs : pyval) (tc cc : float),
            deref (st_heap s') r !! "sentiment"
            = Some (sentiment_record ts cs (PFloat (0.7 * tc + 0.3 * cc)))
            /\ compound_of ts = Some tc
            /\ compound_of cs = Some cc
            /\ (deref (st_heap s) r !! "title" = None ->
                returns (analyze_text self (PStr "")) ts
                /\ ts = PDict zero_scores /\ tc = 0%float)
            /\ (deref (st_heap s) r !! "text" = None ->
                returns (analyze_text self (PStr "")) cs
                /\ cs = PDict zero_scores /\ cc = 0%float))
    /\ (posts ≠ [] ->
        let texts :=
          map (fun post => dict_get (deref (st_heap s) post) "title" (PStr "")) posts
          ++ map (fun post => dict_get (deref (st_heap s) post) "text" (PStr "")) posts in
        exists log, st_log s' = log ++ [CallExtractTopics texts; CallNlp (corpus texts)]).
Proof.
  intros Hok. destruct (decide (posts = [])) as [->|Hne].
  { exists (PList []), s. split_and!; [done| |done]. by intros r ?%elem_of_nil. }
  destruct (for_each_ok self posts s Hok) as [s1 Hloop].
  destruct (analyze_posts_after_loop _ _ _ _ Hne Hloop) as (cs & cats & _ & _ & Hrun).
  destruct (for_each_frame _ _ _ _ Hloop) as [_ Hf].
  eexists _, _. split_and!; [exact Hrun| |].
  - intros r Hr. cbn [st_heap].
    destruct (for_each_scored _ _ _ _ Hloop r Hr)
      as (ts & cs' & tc & cc & cat & Ht & Hc & Htc & Hcc & Hs & _ & _).
    unfold dict_get in Ht, Hc. rewrite !Hf in Ht, Hc by done.
    exists ts, cs', tc, cc. split_and!; try done.
    + intros Hnone. rewrite Hnone in Ht.
      pose proof (analyze_text_empty_returns _ _ Ht) as ->.
      split_and!; [done|done|]. by injection Htc as <-.
    + intros Hnone. rewrite Hnone in Hc.
      pose proof (analyze_text_empty_returns _ _ Hc) as ->.
      split_and!; [done|done|]. by injection Hcc as <-.
  - intros _ texts. cbn [st_log]. exists (st_log s1).
    assert (Heq : forall k, k = "title" \/ k = "text" ->
              map (fun post => dict_get (deref (st_heap s1) post) k (PStr "")) posts
              = map (fun post => dict_get (deref (st_heap s) post) k (PStr "")) posts).
    { intros k Hk. apply map_ext. intros post. unfold dict_get.
      rewrite Hf; [done| |]; by destruct Hk as [-> | ->]. }
    unfold texts. by rewrite !Heq by auto.
Qed.

(** *** The normalizer, applied twice *)

Lemma length_lower s : String.length (lower s) = String.length s.
Proof. induction s as [|c r IH]; simpl; [done|]. by rewrite IH. Qed.

Lemma length_filter_chars keep s :
  (String.length (filter_chars keep s) <= String.length s)%nat.
Proof. induction s as [|c r IH]; simpl; [done|]. destruct (keep c); simpl; lia. Qed.

Lemma length_sub_url b s : (String.length (sub_url b s) <= String.length s)%nat.
Proof.
  revert b. induction s as [|c r IH]; intros b; [done|]. cbn [sub_url].
  destruct (b && negb (is_space c)); [specialize (IH true); simpl; lia|].
  destruct (url_starts (String c r)); [specialize (IH true)|specialize (IH false)]; simpl; lia.
Qed.

Lemma length_re_sub_url_lt s :
  has_url s = true -> (String.length (re_sub_url s) < String.length s)%nat.
Proof.
  induction s as [|c r IH]; [done|]. cbn [has_url]. unfold re_sub_url. cbn [sub_url andb].
  destruct (url_starts (String c r)); simpl.
  - intros _. pose proof (length_sub_url true r). lia.
  - intros H. specialize (IH H). unfold re_sub_url in IH. lia.
Qed.

Lemma preprocess_text_shrinks y :
  has_url y = true -> preprocess_text (PStr y) <> y.
Proof.
  intros H E. apply (f_equal String.length) in E. unfold preprocess_text in E.
  pose proof (length_re_sub_url_lt y H) as Hlt.
  destruct (String.eqb_spec y "") as [->|_]; [done|].
  rewrite length_lower in E. unfold re_sub_special in E.
  pose proof (length_filter_chars keep_char (re_sub_url y)). lia.
Qed.

Lemma preprocess_text_form x :
  preprocess_text x = "" \/ exists s, preprocess_text x = lower (re_sub_special s).
Proof.
  destruct x; try by left. simpl. destruct (String.eqb s ""); [by left|right; eauto].
Qed.

(** A second normalization changes the text exactly when the first one
    left a match of [http\S+] in it. *)
Lemma preprocess_text_twice x :
  preprocess_text (PStr (preprocess_text x)) = preprocess_text x
  <-> has_url (preprocess_text x) = false.
Proof.
  split.
  - intros E. destruct (has_url (preprocess_text x)) eqn:H; [|done].
    by destruct (preprocess_text_shrinks _ H).
  - intros H. destruct (preprocess_text_form x) as [->|[s Hs]]; [done|].
    rewrite Hs in H |- *. by apply preprocess_text_fixed.
Qed.

(** C6 (counterexample). Normalizing ["HTTPS"] gives ["https"], and
    normalizing that gives the empty string. *)
Lemma preprocess_text_not_idempotent :
  preprocess_text (PStr "HTTPS") = "https"
  /\ preprocess_text (PStr (preprocess_text (PStr "HTTPS"))) = ""
  /\ preprocess_text (PStr (preprocess_text (PStr "HTTPS"))) <> preprocess_text (PStr "HTTPS").
Proof. split_and!; [reflexivity|reflexivity|discriminate]. Qed.

(** *** Lowercase topics *)







(** ** More on the item scorer *)

(** X1. Whatever it is given and however it ends, [analyze_text] leaves the
    store as it was and logs its own call first; VADER is called at most
    once, on the very string passed in, and the transformer only after
    VADER, on the first 512 characters. *)
Theorem analyze_text_effects (self : SentimentAnalyzer) (v : pyval) (s : state) :
  st_heap (analyze_text self v s).2 = st_heap s
  /\ exists evs,
       st_log (analyze_text self v s).2 = st_log s ++ CallAnalyzeText v :: evs
       /\ (evs = []
           \/ exists t, v = PStr t
                /\ (evs = [CallPolarityScores t]
                    \/ evs = [CallPolarityScores t; CallTransformer (take_prefix 512 t)]
                    \/ evs = [CallPolarityScores t; CallTransformer (take_prefix 512 t);
                              Printed])).
Proof.
  unfold analyze_text, bind, emit, get_heap, ret, raise. simpl.
  destruct (truthy (st_heap s) v); simpl; [|split; [done|]; exists []; by split; [|left]].
  destruct v; simpl; try (split; [done|]; exists []; by split; [|left]).
  destruct (String.eqb (strip s0) ""); simpl; [split; [done|]; exists []; by split; [|left]|].
  destruct (use_transformers self); simpl.
  - destruct (transformer_model self (take_prefix 512 s0)) as [[label score]|]; simpl;
      (split; [done|]); eexists; (split; [by rewrite <- !app_assoc|]); right; exists s0; eauto.
  - split; [done|]. eexists. split; [by rewrite <- !app_assoc|]. right. exists s0. eauto.
Qed.

(** X2. A transformer that raises costs nothing but its two fields: the
    result is the one the analyzer gives with the transformer switched
    off, and the store is untouched. *)
Theorem transformer_failure_degrades (self : SentimentAnalyzer) (t : string) (s : state) :
  transformer_model self (take_prefix 512 t) = None ->
  (analyze_text self (PStr t) s).1 = (analyze_text (without_transformers self) (PStr t) s).1
  /\ st_heap (analyze_text self (PStr t) s).2 = st_heap s.
Proof.
  intros H. unfold analyze_text, bind, emit, get_heap, ret, raise. simpl.
  destruct (negb (String.eqb t "")); simpl; [|done].
  destruct (String.eqb (strip t) ""); simpl; [done|].
  destruct (use_transformers self); simpl; [|done]. by rewrite H.
Qed.

Lemma take_prefix_spec n t :
  exists rest, t = take_prefix n t +:+ rest
               /\ String.length (take_prefix n t) = Nat.min n (String.length t).
Proof.
  unfold take_prefix. revert n. induction t as [|c t IH]; intros n.
  - exists "". by destruct n.
  - destruct n as [|n]; simpl; [by exists (String c t)|].
    destruct (IH n) as (rest & E & L). exists rest.
    split; [change (String c t = String c (substring 0 n t +:+ rest)); by f_equal|by rewrite L].
Qed.

(** X3. When the transformer answers, its label and score are added to the
    VADER scores and every VADER score stays as it was; what the
    transformer was given is the text cut after 512 characters. *)
Theorem transformer_result_merged
    (self : SentimentAnalyzer) (t label : string) (score : float) (s : state) :
  use_transformers self = true ->
  strip t <> "" ->
  transformer_model self (take_prefix 512 t) = Some (label, score) ->
  exists d,
    analyze_text self (PStr t) s =
      (Ok (PDict d),
       State (st_heap s)
             (st_log s ++ [CallAnalyzeText (PStr t); CallPolarityScores t;
                           CallTransformer (take_prefix 512 t)]))
    /\ d !! "transformer_label" = Some (PStr label)
    /\ d !! "transformer_score" = Some (PFloat score)
    /\ (forall k, k <> "transformer_label" -> k <> "transformer_score" ->
                  d !! k = scores_dict (polarity_scores self t) !! k)
    /\ d !! "compound" = Some (PFloat (v_compound (polarity_scores self t)))
    /\ (exists rest, t = take_prefix 512 t +:+ rest)
    /\ String.length (take_prefix 512 t) = Nat.min 512 (String.length t).
Proof.
  intros Hu Hs Hm. eexists. split_and!.
  - unfold analyze_text, bind, emit, get_heap, ret, raise. simpl.
    destruct (String.eqb_spec t "") as [->|_]; [done|]. simpl.
    destruct (String.eqb_spec (strip t) "") as [E|_]; [done|].
    rewrite Hu. simpl. rewrite Hm. by rewrite <- !app_assoc.
  - by rewrite lookup_insert_ne, lookup_insert_eq.
  - by rewrite lookup_insert_eq.
  - intros k H1 H2. by rewrite !lookup_insert_ne.
  - done.
  - destruct (take_prefix_spec 512 t) as (rest & E & _). eauto.
  - by destruct (take_prefix_spec 512 t) as (rest & _ & L).
Qed.

Lemma analyze_text_non_str self v s :
  isinstance_str v = false ->
  analyze_text self v s =
    (if truthy (st_heap s) v then Raise AttributeError else Ok (PDict zero_scores),
     State (st_heap s) (st_log s ++ [CallAnalyzeText v])).
Proof.
  intros H. unfold analyze_text, bind, emit, get_heap, ret, raise. simpl.
  destruct (truthy (st_heap s) v); simpl; [|done]. by destruct v.
Qed.


(** ** More on the normalizer *)

Ltac other_char c := destruct c as [[] [] [] [] [] [] [] []]; try discriminate.

Lemma url_starts_inv s :
  url_starts s = true ->
  exists c rest, s = String "h" (String "t" (String "t" (String "p" (String c rest))))
                 /\ is_space c = false.
Proof.
  destruct s as [|c0 s]; [discriminate|]. other_char c0.
  destruct s as [|c1 s]; [discriminate|]. other_char c1.
  destruct s as [|c2 s]; [discriminate|]. other_char c2.
  destruct s as [|c3 s]; [discriminate|]. other_char c3.
  destruct s as [|c4 s]; [discriminate|]. cbn [url_starts].
  intros H%negb_true_iff. eauto.
Qed.

Lemma skip_nonspace_head r :
  skip_nonspace r = "" \/ exists c r', skip_nonspace r = String c r' /\ is_space c = true.
Proof.
  induction r as [|c r IH]; [by left|]. cbn [skip_nonspace].
  destruct (is_space c) eqn:E; [right; eauto|done].
Qed.

(** The result of the URL removal begins with a space character, or with
    the first character of the text, kept. *)
Lemma sub_url_head r :
  sub_url false r = ""
  \/ exists c out, sub_url false r = String c out
       /\ (is_space c = true \/ exists r', r = String c r' /\ out = sub_url false r').
Proof.
  destruct r as [|c r']; [by left|].
  change (sub_url false (String c r')) with (re_sub_url (String c r')).
  rewrite re_sub_url_unfold. destruct (url_starts (String c r')).
  - destruct (skip_nonspace_head r') as [->|(c' & r'' & -> & Hsp)]; [by left|].
    right. exists c', (sub_url false r''). split; [|by left].
    unfold re_sub_url. cbn [sub_url andb]. by rewrite url_starts_space.
  - right. exists c, (sub_url false r'). split; [done|]. right. eauto.
Qed.

Lemma url_starts_sub_url c r :
  url_starts (String c r) = false -> url_starts (String c (sub_url false r)) = false.
Proof.
  intros Hno. destruct (url_starts (String c (sub_url false r))) eqn:E; [|done].
  apply url_starts_inv in E as (c4 & rest & E & Hsp). injection E as -> E.
  destruct (sub_url_head r) as [E0|(c0 & out0 & E0 & [S0|(r1 & -> & ->)])];
    rewrite E0 in E; [discriminate| |]; injection E as -> E; [discriminate|].
  destruct (sub_url_head r1) as [E1|(c1 & out1 & E1 & [S1|(r2 & -> & ->)])];
    rewrite E1 in E; [discriminate| |]; injection E as -> E; [discriminate|].
  destruct (sub_url_head r2) as [E2|(c2 & out2 & E2 & [S2|(r3 & -> & ->)])];
    rewrite E2 in E; [discriminate| |]; injection E as -> E; [discriminate|].
  destruct (sub_url_head r3) as [E3|(c3 & out3 & E3 & [S3|(r4 & -> & ->)])];
    rewrite E3 in E; [discriminate| |]; injection E as -> E; [congruence|].
  cbn [url_starts] in Hno. by rewrite Hsp in Hno.
Qed.

(** After the URL removal no match of [http\S+] is left. *)
Lemma has_url_sub_url b s : has_url (sub_url b s) = false.
Proof.
  revert b. induction s as [|c r IH]; intros b; [done|]. cbn [sub_url].
  destruct (b && negb (is_space c)); [apply IH|].
  destruct (url_starts (String c r)) eqn:E; [apply IH|].
  cbn [has_url]. by rewrite (url_starts_sub_url _ _ E), IH.
Qed.

Lemma all_chars_sub_url p b s : all_chars p s = true -> all_chars p (sub_url b s) = true.
Proof.
  revert b. induction s as [|c r IH]; intros b; [done|]. cbn [all_chars sub_url].
  intros [Hc Hr]%andb_true_iff.
  destruct (b && negb (is_space c)); [by apply IH|].
  destruct (url_starts (String c r)); [by apply IH|].
  cbn [all_chars]. by rewrite Hc, IH.
Qed.

Lemma normal_fixed s :
  all_chars normal_char s = true -> lower s = s /\ re_sub_special s = s.
Proof.
  unfold re_sub_special. induction s as [|c r IH]; [done|]. cbn [all_chars lower filter_chars].
  intros [Hc Hr]%andb_true_iff. destruct (IH Hr) as [-> ->].
  apply andb_true_iff in Hc as [Hk He]. apply Ascii.eqb_eq in He. by rewrite Hk, He.
Qed.

Lemma normal_lower_filter s : all_chars normal_char (lower (re_sub_special s)) = true.
Proof.
  unfold re_sub_special. induction s as [|c r IH]; [done|]. cbn [filter_chars].
  destruct (keep_char c) eqn:E; [|done]. cbn [lower all_chars]. rewrite IH.
  unfold normal_char. by rewrite keep_char_lower_char, E, lower_char_idem, Ascii.eqb_refl.
Qed.

Lemma normal_preprocess_text x : all_chars normal_char (preprocess_text x) = true.
Proof.
  destruct (preprocess_text_form x) as [->|[s ->]]; [done|]. apply normal_lower_filter.
Qed.

Lemma all_chars_and p q s :
  all_chars (fun c => p c && q c) s = all_chars p s && all_chars q s.
Proof.
  induction s as [|c r IH]; [done|]. cbn [all_chars]. rewrite IH.
  destruct (p c), (q c), (all_chars p r); done.
Qed.

Lemma all_chars_filter_chars p keep s :
  all_chars p s = true -> all_chars p (filter_chars keep s) = true.
Proof.
  induction s as [|c r IH]; [done|]. cbn [all_chars filter_chars].
  intros [Hc Hr]%andb_true_iff. destruct (keep c); [|by apply IH].
  cbn [all_chars]. by rewrite Hc, IH.
Qed.

Lemma is_ascii_lower_char c : is_ascii (lower_char c) = is_ascii c.
Proof. each_char c. Qed.

Lemma all_chars_ascii_lower s : all_chars is_ascii (lower s) = all_chars is_ascii s.
Proof.
  induction s as [|c r IH]; [done|]. cbn [lower all_chars].
  by rewrite is_ascii_lower_char, IH.
Qed.

(** X5. On a text of ASCII characters, what the normalizer returns
    consists of ASCII word and space characters that lowercasing does not
    change, that is of [a-z], [0-9], [_] and whitespace, and it is never
    longer than the text. *)
Theorem preprocess_text_alphabet (s : string) :
  all_chars is_ascii s = true ->
  all_chars ascii_normal_char (preprocess_text (PStr s)) = true
  /\ (String.length (preprocess_text (PStr s)) <= String.length s)%nat.
Proof.
  intros Hs. split.
  - unfold ascii_normal_char. rewrite all_chars_and, normal_preprocess_text.
    unfold preprocess_text. destruct (String.eqb s ""); [done|].
    rewrite all_chars_ascii_lower. unfold re_sub_special, re_sub_url.
    by apply all_chars_filter_chars, all_chars_sub_url.
  - unfold preprocess_text.
    destruct (String.eqb s ""); [simpl; lia|]. rewrite length_lower. unfold re_sub_special.
    pose proof (length_filter_chars keep_char (re_sub_url s)).
    pose proof (length_sub_url false s). unfold re_sub_url in *. lia.
Qed.

Lemma preprocess_text_normal y :
  all_chars normal_char y = true -> preprocess_text (PStr y) = re_sub_url y.
Proof.
  intros H. unfold preprocess_text. destruct (String.eqb_spec y "") as [->|_]; [done|].
  pose proof (all_chars_sub_url normal_char false y H) as Hn.
  apply normal_fixed in Hn as [Hl Hf]. unfold re_sub_url in *. by rewrite Hf, Hl.
Qed.

(** C6 (amended). The normalizer is a total function; it returns the empty
    string on [None], on the empty string and on every value that is not a
    string.  Normalizing twice is not normalizing once: whenever the
    normalized text still has an [http] followed by a non-space character,
    the second pass changes it.  What the normalizer leaves as it is are
    the strings without such an [http] that consist of word and space
    characters lowercasing does not change; where the normalized text is
    one of them, normalizing twice is normalizing once. *)
Theorem preprocess_text_total_and_stable (x : pyval) :
  preprocess_text PNone = ""
  /\ preprocess_text (PStr "") = ""
  /\ (isinstance_str x = false -> preprocess_text x = "")
  /\ (has_url (preprocess_text x) = true ->
      preprocess_text (PStr (preprocess_text x)) <> preprocess_text x)
  /\ (forall y : string,
        all_chars normal_char y = true -> has_url y = false ->
        preprocess_text (PStr y) = y).
Proof.
  split_and!; [done|done|by destruct x|apply preprocess_text_shrinks|].
  intros y Hy Hno. rewrite (preprocess_text_normal y Hy). by apply re_sub_url_no_url.
Qed.

(** X6. Normalizing is not idempotent, but normalizing twice is: a third
    pass changes nothing, and what two passes give has no [http] followed
    by a non-space character. *)
Theorem preprocess_text_twice_is_stable (x : pyval) :
  let twice := preprocess_text (PStr (preprocess_text x)) in
  preprocess_text (PStr twice) = twice /\ has_url twice = false.
Proof.
  intros twice.
  assert (Hno : has_url twice = false).
  { unfold twice. rewrite (preprocess_text_normal _ (normal_preprocess_text x)).
    apply has_url_sub_url. }
  split; [|done]. unfold twice in *.
  by apply (preprocess_text_twice (PStr (preprocess_text x))).
Qed.

(** ** More on the topic extractor *)

Lemma counter_add_total t c :
  sum_list_with snd (counter_add t c) = S (sum_list_with snd c).
Proof.
  induction c as [|[k n] c IH]; [done|]. cbn [counter_add].
  destruct (String.eqb k t); cbn [sum_list_with snd]; [done|].
  rewrite IH. lia.
Qed.

Lemma Counter_total l : sum_list_with snd (Counter l) = length l.
Proof.
  induction l as [|t l IH] using rev_ind; [done|].
  rewrite Counter_snoc, counter_add_total, IH, length_app. simpl. lia.
Qed.

Lemma top_topics_in_counter self texts top_n :
  exists rest,
    top_topics self texts top_n ++ rest
    ≡ₚ Counter (candidates self (nlp self (corpus texts))).
Proof.
  exists (drop (Z.to_nat top_n) (sort_desc (Counter (candidates self (nlp self (corpus texts)))))).
  unfold top_topics, most_common. by rewrite take_drop, sort_desc_perm.
Qed.

(** X7. [extract_topics] lists no topic twice, and the counts it reports
    never add up to more than the number of candidates. *)
Theorem extract_topics_distinct (self : SentimentAnalyzer) (texts : list pyval) (top_n : Z) :
  NoDup (top_topics self texts top_n).*1
  /\ (sum_list_with snd (top_topics self texts top_n)
      <= length (candidates self (nlp self (corpus texts))))%nat.
Proof.
  destruct (top_topics_in_counter self texts top_n) as [rest Hperm].
  destruct (Counter_spec (candidates self (nlp self (corpus texts)))) as (Hnd & _).
  split.
  - rewrite <- Hperm, fmap_app in Hnd. by apply NoDup_app in Hnd as [? _].
  - rewrite <- Counter_total, <- Hperm, sum_list_with_app. lia.
Qed.

(** X8. When [top_n] is at least the number of distinct candidates, every
    candidate is listed (exactly the candidates are), and the counts add
    up to the number of candidates. *)
Theorem extract_topics_complete (self : SentimentAnalyzer) (texts : list pyval) (top_n : Z) :
  let cands := candidates self (nlp self (corpus texts)) in
  (Z.of_nat (length (Counter cands)) <= top_n)%Z ->
  top_topics self texts top_n ≡ₚ Counter cands
  /\ (forall t, t ∈ (top_topics self texts top_n).*1 <-> t ∈ cands)
  /\ sum_list_with snd (top_topics self texts top_n) = length cands.
Proof.
  intros cands H.
  assert (Hperm : top_topics self texts top_n ≡ₚ Counter cands).
  { unfold top_topics, most_common. fold cands. rewrite take_ge; [apply sort_desc_perm|].
    rewrite sort_desc_perm. lia. }
  destruct (Counter_spec cands) as (_ & Hkeys & _).
  split_and!; [done| |].
  - intros t. by rewrite Hperm.
  - by rewrite Hperm, Counter_total.
Qed.

(** ** What the computations read and write *)

Lemma pure_comp_bind {A B} (c : M A) (k : A -> M B) :
  pure_comp c -> (forall a, pure_comp (k a)) -> pure_comp (bind c k).
Proof.
  intros Hc Hk s. unfold bind. specialize (Hc s).
  destruct (c s) as [[a|e] s1]; simpl in Hc; subst s1; [apply Hk|done].
Qed.

Lemma pure_comp_subscript v k : pure_comp (subscript v k).
Proof.
  intros s. destruct v; try done; simpl.
  - by destruct (d !! k).
  - unfold bind, get_heap. by destruct (deref (st_heap s) r !! k).
Qed.

Lemma pure_comp_arith f g a b : pure_comp (arith f g a b).
Proof.
  intros s. unfold arith. destruct (num_of a) as [[]|], (num_of b) as [[]|]; done.
Qed.

Lemma pure_comp_truediv a b : pure_comp (py_truediv a b).
Proof.
  intros s. unfold py_truediv. destruct (num_of a), (num_of b); try done.
  by destruct (num_is_zero _).
Qed.

Lemma pure_comp_ge a b : pure_comp (py_ge a b).
Proof. intros s. unfold py_ge. by destruct (num_of a), (num_of b). Qed.

Lemma pure_comp_sentiment_category v : pure_comp (sentiment_category v).
Proof.
  unfold sentiment_category. apply pure_comp_bind; [apply pure_comp_ge|].
  intros []; [done|]. apply pure_comp_bind; [apply pure_comp_ge|]. by intros [].
Qed.

Lemma pure_comp_map_m {A B} (f : A -> M B) l :
  (forall x, pure_comp (f x)) -> pure_comp (map_m f l).
Proof.
  intros Hf. induction l as [|x l IH]; [done|]. cbn [map_m].
  apply pure_comp_bind; [done|]. intros y. apply pure_comp_bind; [done|]. done.
Qed.

Lemma pure_comp_sum_from acc values : pure_comp (sum_from acc values).
Proof.
  revert acc. induction values as [|v values IH]; intros acc; [done|]. cbn [sum_from].
  apply pure_comp_bind; [apply pure_comp_arith|done].
Qed.

Lemma pure_comp_overall self posts : pure_comp (calculate_overall_sentiment self posts).
Proof.
  unfold calculate_overall_sentiment. destruct posts as [|p posts]; [done|].
  apply pure_comp_bind.
  { apply pure_comp_map_m. intros x. apply pure_comp_bind; [|intros ?]; apply pure_comp_subscript. }
  intros vs. apply pure_comp_bind.
  { apply pure_comp_map_m. intros x. apply pure_comp_subscript. }
  intros ks. apply pure_comp_bind; [apply pure_comp_sum_from|]. intros total.
  repeat (apply pure_comp_bind; [apply pure_comp_truediv|intros ?]). done.
Qed.

(** X9. [calculate_overall_sentiment] only reads: whatever the posts carry
    and whether it returns or raises, the store and the log are afterwards
    what they were. *)
Theorem calculate_overall_sentiment_pure
    (self : SentimentAnalyzer) (posts : list loc) (s : state) :
  (calculate_overall_sentiment self posts s).2 = s.
Proof. apply pure_comp_overall. Qed.

Lemma read_only_pure {A} (c : M A) : pure_comp c -> read_only c.
Proof. intros H s. by rewrite H. Qed.

Lemma read_only_analyze_text self v : read_only (analyze_text self v).
Proof.
  intros s. unfold analyze_text, bind, emit, get_heap, ret, raise. simpl.
  destruct (truthy (st_heap s) v); simpl; [|done].
  destruct v; simpl; try done.
  destruct (String.eqb (strip s0) ""); simpl; [done|].
  destruct (use_transformers self); simpl; [|done].
  by destruct (transformer_model self (take_prefix 512 s0)) as [[label score]|].
Qed.

Lemma read_only_extract_topics self texts top_n : read_only (extract_topics self texts top_n).
Proof. intros s. by rewrite extract_topics_run. Qed.

Lemma writes_within_read_only {A} K (c : M A) : read_only c -> writes_within K c.
Proof. intros H s r k _. by rewrite H. Qed.

Lemma writes_within_bind {A B} K (c : M A) (k : A -> M B) :
  writes_within K c -> (forall a, writes_within K (k a)) -> writes_within K (bind c k).
Proof.
  intros Hc Hk s r key Hn. unfold bind. specialize (Hc s r key Hn).
  destruct (c s) as [[a|e] s1]; simpl in Hc; [by rewrite Hk|done].
Qed.

Lemma writes_within_set_item (K : loc -> string -> Prop) r k v :
  K r k -> writes_within K (set_item r k v).
Proof.
  intros HK s r' k' Hn. rewrite set_item_heap. cbn [snd st_heap].
  destruct (decide (r' = r)) as [->|Hne]; [|by rewrite deref_insert_ne].
  rewrite deref_insert_eq, lookup_insert_ne; [done|]. by intros ->.
Qed.

Lemma writes_within_for_each {A} K (f : A -> M unit) l :
  (forall x, x ∈ l -> writes_within K (f x)) -> writes_within K (for_each f l).
Proof.
  induction l as [|x l IH]; intros Hf; [done|]. cbn [for_each].
  apply writes_within_bind; [apply Hf; by left|].
  intros _. apply IH. intros y Hy. apply Hf. by right.
Qed.

Lemma writes_within_score_post self K p :
  (forall k, sentiment_key k -> K p k) -> writes_within K (score_post self p).
Proof.
  intros HK. unfold score_post.
  apply writes_within_bind; [by apply writes_within_read_only|]. intros h.
  apply writes_within_bind; [apply writes_within_read_only, read_only_analyze_text|]. intros ts.
  apply writes_within_bind; [by apply writes_within_read_only|]. intros h'.
  apply writes_within_bind; [apply writes_within_read_only, read_only_analyze_text|]. intros cs.
  apply writes_within_bind;
    [apply writes_within_read_only, read_only_pure, pure_comp_subscript|]. intros tc.
  apply writes_within_bind;
    [apply writes_within_read_only, read_only_pure, pure_comp_arith|]. intros wt.
  apply writes_within_bind;
    [apply writes_within_read_only, read_only_pure, pure_comp_subscript|]. intros cc.
  apply writes_within_bind;
    [apply writes_within_read_only, read_only_pure, pure_comp_arith|]. intros wc.
  apply writes_within_bind;
    [apply writes_within_read_only, read_only_pure, pure_comp_arith|]. intros c.
  apply writes_within_bind; [apply writes_within_set_item, HK; by left|]. intros _.
  apply writes_within_bind;
    [apply writes_within_read_only, read_only_pure, pure_comp_sentiment_category|]. intros cat.
  apply writes_within_set_item, HK. by right.
Qed.

(** X10. However [analyze_posts] ends, with a result or with an exception
    part of the way through the batch, the only entries of the store it
    has written are the [sentiment] and [sentiment_category] of posts of
    the batch: every other key of every dict is as it was. *)
Theorem analyze_posts_writes_only_annotations
    (self : SentimentAnalyzer) (posts : list loc) (s : state) (r : loc) (k : string) :
  ~ (r ∈ posts /\ sentiment_key k) ->
  deref (st_heap (analyze_posts self posts s).2) r !! k = deref (st_heap s) r !! k.
Proof.
  revert s r k.
  change (writes_within (fun r k => r ∈ posts /\ sentiment_key k) (analyze_posts self posts)).
  unfold analyze_posts. destruct posts as [|p posts]; [done|].
  apply writes_within_bind.
  { apply writes_within_for_each. intros x Hx. by apply writes_within_score_post. }
  intros _. apply writes_within_bind; [by apply writes_within_read_only|]. intros h.
  apply writes_within_bind; [apply writes_within_read_only, read_only_extract_topics|].
  intros topics.
  apply writes_within_bind; [|done].
  apply writes_within_read_only, read_only_pure, pure_comp_overall.
Qed.

Lemma map_m_raises {A B} (f : A -> M B) l x s :
  (forall y, pure_comp (f y)) -> x ∈ l -> (exists e, f x s = (Raise e, s)) ->
  exists e, map_m f l s = (Raise e, s).
Proof.
  intros Hf Hx [e He]. induction l as [|y l IH]; [by apply elem_of_nil in Hx|].
  cbn [map_m]. unfold bind at 1.
  pose proof (Hf y s) as Hy. destruct (f y s) as [[b|e'] s1] eqn:E; simpl in Hy; subst s1.
  - apply elem_of_cons in Hx as [->|Hx]; [congruence|].
    destruct (IH Hx) as [e2 H2]. unfold bind. rewrite H2. eauto.
  - eauto.
Qed.

Lemma subscript_ref_missing r k s :
  deref (st_heap s) r !! k = None -> subscript (PRef r) k s = (Raise (KeyError k), s).
Proof. intros H. unfold subscript, bind, get_heap. by rewrite H. Qed.

(** X11. [calculate_overall_sentiment] needs every item annotated: when an
    item of the batch has no [sentiment], it raises and returns nothing,
    and when that item is the first, what it raises is
    [KeyError('sentiment')]. *)
Theorem overall_sentiment_needs_annotations
    (self : SentimentAnalyzer) (posts : list loc) (s : state) (r : loc) :
  r ∈ posts ->
  deref (st_heap s) r !! "sentiment" = None ->
  (exists e, calculate_overall_sentiment self posts s = (Raise e, s))
  /\ (head posts = Some r ->
      calculate_overall_sentiment self posts s = (Raise (KeyError "sentiment"), s)).
Proof.
  intros Hr Hnone. split.
  - unfold calculate_overall_sentiment. destruct posts as [|p posts]; [by apply elem_of_nil in Hr|].
    unfold bind at 1.
    destruct (map_m_raises
                (fun post => s <- subscript (PRef post) "sentiment" ;; subscript s "compound")
                (p :: posts) r s) as [e He]; [| done | | rewrite He; eauto].
    + intros y. apply pure_comp_bind; [|intros ?]; apply pure_comp_subscript.
    + exists (KeyError "sentiment"). unfold bind. by rewrite subscript_ref_missing.
  - destruct posts as [|p posts]; [done|]. intros [= ->].
    unfold calculate_overall_sentiment. cbn [map_m]. unfold bind.
    by rewrite subscript_ref_missing.
Qed.

(** ** More on the batch aggregator *)

(** The scorer on a text-like value, with what it logs. *)
Lemma analyze_text_calls self v :
  text_like v ->
  exists r evs,
    (forall st : state,
       analyze_text self v st = (Ok r, State (st_heap st) (st_log st ++ CallAnalyzeText v :: evs)))
    /\ filter is_scorer_call evs = [].
Proof.
  intros [->|[s ->]].
  - exists (PDict zero_scores), []. split; [|done]. intros. apply analyze_text_none.
  - unfold analyze_text, bind, emit, get_heap, ret. simpl.
    destruct (negb (String.eqb s "")); simpl; [|by eexists _, []].
    destruct (String.eqb (strip s) ""); simpl; [by eexists _, []|].
    destruct (use_transformers self); simpl.
    + destruct (transformer_model self (take_prefix 512 s)) as [[label score]|]; simpl;
        eexists _, _; (split; [intros; by rewrite <- !app_assoc|done]).
    + eexists _, _. split; [intros; by rewrite <- !app_assoc|done].
Qed.

Lemma sentiment_category_float c :
  exists cat, forall s, sentiment_category (PFloat c) s = (Ok cat, s).
Proof.
  unfold sentiment_category, py_le, py_ge, bind, ret. simpl.
  destruct (0.05 <=? c)%float; [by exists "positive"|].
  destruct (c <=? -0.05)%float; [by exists "negative"|by exists "neutral"].
Qed.

(** One turn of the loop on a post with text-like fields, in full. *)
Lemma score_post_run self p s :
  fields_ok (deref (st_heap s) p) ->
  exists (ts cs : pyval) (tc cc : float) (cat : string) (evt evc : list event),
    (forall st, (analyze_text self (dict_get (deref (st_heap s) p) "title" (PStr "")) st).1 = Ok ts)
    /\ (forall st, (analyze_text self (dict_get (deref (st_heap s) p) "text" (PStr "")) st).1 = Ok cs)
    /\ compound_of ts = Some tc
    /\ compound_of cs = Some cc
    /\ (forall st, sentiment_category (PFloat (0.7 * tc + 0.3 * cc)) st = (Ok cat, st))
    /\ filter is_scorer_call (evt ++ evc) = scorer_calls (st_heap s) p
    /\ score_post self p s =
       (Ok tt,
        State (<[p := <["sentiment_category" := PStr cat]>
                  (<["sentiment" := sentiment_record ts cs (PFloat (0.7 * tc + 0.3 * cc))]>
                     (deref (st_heap s) p))]> (st_heap s))
              (st_log s ++ evt ++ evc)).
Proof.
  intros Hd.
  destruct (analyze_text_calls self _ (fields_ok_get _ "title" Hd (or_introl eq_refl)))
    as (ts & evt & Ht & Ft).
  destruct (analyze_text_calls self _ (fields_ok_get _ "text" Hd (or_intror eq_refl)))
    as (cs & evc & Hc & Fc).
  destruct (analyze_text_inv _ _ _ _ _ (Ht s)) as (_ & dt & ct & -> & Hct & Sct).
  destruct (analyze_text_inv _ _ _ _ _ (Hc s)) as (_ & dc & cc & -> & Hcc & Scc).
  destruct (is_score_num _ Sct) as [nt Hnt]. destruct (is_score_num _ Scc) as [nc Hnc].
  destruct (sentiment_category_float (0.7 * to_float nt + 0.3 * to_float nc)) as [cat Hcat].
  exists (PDict dt), (PDict dc), (to_float nt), (to_float nc), cat,
    (CallAnalyzeText (dict_get (deref (st_heap s) p) "title" (PStr "")) :: evt),
    (CallAnalyzeText (dict_get (deref (st_heap s) p) "text" (PStr "")) :: evc).
  split_and!.
  - intros st. by rewrite Ht.
  - intros st. by rewrite Hc.
  - simpl. by rewrite Hct, Hnt.
  - simpl. by rewrite Hcc, Hnc.
  - done.
  - rewrite filter_app, !filter_cons_True by done. by rewrite Ft, Fc.
  - unfold score_post. unfold bind at 1, get_heap.
    rewrite (bind_Ok_intro _ _ _ _ _ (Ht s)). unfold bind at 1. cbn [st_heap].
    rewrite (bind_Ok_intro _ _ _ _ _ (Hc _)).
    rewrite (bind_Ok_intro _ _ _ _ _ (subscript_dict _ _ _ _ Hct)).
    rewrite (bind_Ok_intro _ _ _ _ _ (py_mul_float _ _ _ _ Hnt)).
    rewrite (bind_Ok_intro _ _ _ _ _ (subscript_dict _ _ _ _ Hcc)).
    rewrite (bind_Ok_intro _ _ _ _ _ (py_mul_float _ _ _ _ Hnc)).
    rewrite (bind_Ok_intro _ _ _ _ _ (py_add_float _ _ _)).
    rewrite (bind_Ok_intro _ _ _ _ _ (set_item_heap _ _ _ _)).
    rewrite (bind_Ok_intro _ _ _ _ _ (Hcat _)).
    rewrite set_item_heap. cbn [st_heap st_log].
    by rewrite deref_insert_eq, insert_insert_eq, <- app_assoc.
Qed.

Lemma fields_ok_frame (d d' : dict) :
  d' !! "title" = d !! "title" -> d' !! "text" = d !! "text" -> fields_ok d -> fields_ok d'.
Proof.
  intros Ht Hx Hd k v [-> | ->] Hv.
  - apply (Hd "title" v); [by left|by rewrite <- Ht].
  - apply (Hd "text" v); [by right|by rewrite <- Hx].
Qed.

Lemma scorer_calls_frame (h h' : heap) p :
  deref h' p !! "title" = deref h p !! "title" ->
  deref h' p !! "text" = deref h p !! "text" ->
  scorer_calls h' p = scorer_calls h p.
Proof. intros Ht Hx. unfold scorer_calls, dict_get. by rewrite Ht, Hx. Qed.

(** The loop on posts with text-like fields: it runs through, and calls
    the scorer on the title and on the text of each post in turn. *)
Lemma for_each_run self posts s :
  (forall r, r ∈ posts -> fields_ok (deref (st_heap s) r)) ->
  exists s' evs,
    for_each (score_post self) posts s = (Ok tt, s')
    /\ st_log s' = st_log s ++ evs
    /\ filter is_scorer_call evs = flat_map (scorer_calls (st_heap s)) posts.
Proof.
  revert s. induction posts as [|p posts IH]; intros s H; cbn [for_each].
  - exists s, []. by rewrite app_nil_r.
  - destruct (score_post_run self p s) as (ts & cs & tc & cc & cat & evt & evc & _ & _ & _ & _ & _ & Hf & H1);
      [apply H; by left|].
    rewrite (bind_Ok_intro _ _ _ _ _ H1).
    destruct (score_post_frame _ _ _ _ H1) as [Hf1 Hf2]. cbn [st_heap] in Hf1, Hf2.
    assert (Hsame : forall r k, k = "title" \/ k = "text" ->
              deref (<[p := <["sentiment_category" := PStr cat]>
                        (<["sentiment" := sentiment_record ts cs (PFloat (0.7 * tc + 0.3 * cc))]>
                           (deref (st_heap s) p))]> (st_heap s)) r !! k
              = deref (st_heap s) r !! k).
    { intros r k Hk. destruct (decide (r = p)) as [->|Hne]; [|by rewrite Hf1].
      apply Hf2; by destruct Hk as [-> | ->]. }
    match goal with
    | |- context [for_each _ _ ?st] => destruct (IH st) as (s' & evs & Hrun & Hlog & Hcalls)
    end.
    { intros r Hr. cbn [st_heap]. eapply fields_ok_frame; [| |apply H; by right]; apply Hsame; auto. }
    exists s', ((evt ++ evc) ++ evs). split_and!; [done| |].
    + rewrite Hlog. cbn [st_log]. by rewrite <- !app_assoc.
    + rewrite filter_app, Hf, Hcalls. cbn [flat_map st_heap]. f_equal.
      apply flat_map_ext. intros r. apply scorer_calls_frame; apply Hsame; auto.
Qed.

(** X12. On a batch whose titles and texts are strings or [None],
    [analyze_posts] calls the item scorer exactly twice for each post, on
    its title and then on its text, post after post in the order of the
    batch; a title or text that is missing is passed as the empty
    string. *)
Theorem analyze_posts_scorer_calls (self : SentimentAnalyzer) (posts : list loc) (s : state) :
  (forall r, r ∈ posts -> fields_ok (deref (st_heap s) r)) ->
  exists (v : pyval) (s' : state) (evs : list event),
    analyze_posts self posts s = (Ok v, s')
    /\ st_log s' = st_log s ++ evs
    /\ filter is_scorer_call evs = flat_map (scorer_calls (st_heap s)) posts
    /\ length (filter is_scorer_call evs) = (2 * length posts)%nat.
Proof.
  intros Hok. destruct (decide (posts = [])) as [->|Hne].
  { exists (PList []), s, []. by rewrite app_nil_r. }
  destruct (for_each_run self posts s Hok) as (s1 & evs & Hloop & Hlog & Hcalls).
  destruct (analyze_posts_after_loop _ _ _ _ Hne Hloop) as (cs & cats & _ & _ & Hrun).
  eexists _, _, (evs ++ _). split_and!; [exact Hrun| | |].
  - cbn [st_log]. by rewrite Hlog, <- app_assoc.
  - rewrite filter_app, Hcalls, !filter_cons_False by (by intros ?). apply app_nil_r.
  - rewrite filter_app, Hcalls, !filter_cons_False by (by intros ?).
    rewrite filter_nil, app_nil_r.
    clear. induction posts as [|p posts IH]; [done|]. cbn [flat_map]. rewrite length_app, IH.
    cbn [length scorer_calls]. lia.
Qed.

Lemma same_texts (h h' : heap) posts k :
  (forall r, deref h' r !! k = deref h r !! k) ->
  map (fun post => dict_get (deref h' post) k (PStr "")) posts
  = map (fun post => dict_get (deref h post) k (PStr "")) posts.
Proof. intros H. apply map_ext. intros post. unfold dict_get. by rewrite H. Qed.

(** X13. What [analyze_posts] returns for a batch that is not empty and
    whose titles and texts are strings or [None]: a dict of exactly three
    entries. [posts] is the batch itself, in its order; [topics] are the
    at most ten topics of the titles followed by the texts, read as they
    were before the call; [overall_sentiment] is the mean and the
    fractions of the compounds and categories the call has just attached
    to the posts. *)
Theorem analyze_posts_result (self : SentimentAnalyzer) (posts : list loc) (s : state) :
  posts ≠ [] ->
  (forall r, r ∈ posts -> fields_ok (deref (st_heap s) r)) ->
  exists (s' : state) (cs : list float) (cats : list string),
    let texts :=
      map (fun post => dict_get (deref (st_heap s) post) "title" (PStr "")) posts
      ++ map (fun post => dict_get (deref (st_heap s) post) "text" (PStr "")) posts in
    let topics := top_topics self texts 10 in
    analyze_posts self posts s =
      (Ok (PDict (list_to_map
                    [("posts", PList (map PRef posts));
                     ("topics", PList (map topic_entry topics));
                     ("overall_sentiment", PDict (overall_record cs cats))])),
       s')
    /\ (length topics <= 10)%nat
    /\ Forall2 (fun r c => item_compound (deref (st_heap s') r) = Some c) posts cs
    /\ Forall2 (fun r c => item_category (deref (st_heap s') r) = Some c) posts cats.
Proof.
  intros Hne Hok.
  destruct (for_each_ok self posts s Hok) as [s1 Hloop].
  destruct (analyze_posts_after_loop _ _ _ _ Hne Hloop) as (cs & cats & Hcs & Hcats & Hrun).
  destruct (for_each_frame _ _ _ _ Hloop) as [_ Hf].
  eexists _, cs, cats. cbn zeta. split_and!.
  - rewrite Hrun. cbn zeta.
    by rewrite !(same_texts (st_heap s) (st_heap s1)) by (intros; by apply Hf).
  - unfold top_topics, most_common. rewrite length_take. lia.
  - done.
  - done.
Qed.

Lemma deref_lookup (h : heap) r : is_Some (h !! r) -> h !! r = Some (deref h r).
Proof. intros [d Hd]. unfold deref. by rewrite (lookup_total_correct _ _ _ Hd). Qed.

(** Scoring a post that carries its annotations already changes nothing in
    the store. *)
Lemma score_post_fixed self p s :
  fields_ok (deref (st_heap s) p) ->
  scored self (deref (st_heap s) p) ->
  is_Some (st_heap s !! p) ->
  exists evs, score_post self p s = (Ok tt, State (st_heap s) (st_log s ++ evs)).
Proof.
  intros Hok (ts' & cs' & tc' & cc' & cat' & (st1 & st1' & Ht') & (st2 & st2' & Hc')
              & Htc' & Hcc' & Hs & (st3 & st3' & Hcat') & Hc) Hdom.
  destruct (score_post_run self p s Hok)
    as (ts & cs & tc & cc & cat & evt & evc & Ht & Hcs & Htc & Hcc & Hcat & _ & Hrun).
  specialize (Ht st1). rewrite Ht' in Ht. injection Ht as ->.
  specialize (Hcs st2). rewrite Hc' in Hcs. injection Hcs as ->.
  rewrite Htc in Htc'. injection Htc' as <-. rewrite Hcc in Hcc'. injection Hcc' as <-.
  rewrite Hcat in Hcat'. injection Hcat' as <- _.
  exists (evt ++ evc). rewrite Hrun. do 2 f_equal.
  rewrite (insert_id (deref (st_heap s) p) "sentiment") by done.
  rewrite (insert_id (deref (st_heap s) p) "sentiment_category") by done.
  apply insert_id. by apply deref_lookup.
Qed.

Lemma for_each_fixed self posts s :
  (forall r, r ∈ posts ->
     fields_ok (deref (st_heap s) r) /\ scored self (deref (st_heap s) r)
     /\ is_Some (st_heap s !! r)) ->
  exists evs, for_each (score_post self) posts s = (Ok tt, State (st_heap s) (st_log s ++ evs)).
Proof.
  revert s. induction posts as [|p posts IH]; intros s H; cbn [for_each].
  - exists []. rewrite app_nil_r. by destruct s.
  - destruct (H p) as (Hok & Hsc & Hdom); [by left|].
    destruct (score_post_fixed self p s Hok Hsc Hdom) as [evs1 H1].
    rewrite (bind_Ok_intro _ _ _ _ _ H1).
    destruct (IH (State (st_heap s) (st_log s ++ evs1))) as [evs2 H2].
    { intros r Hr. apply H. by right. }
    exists (evs1 ++ evs2). rewrite H2. cbn [st_heap st_log]. by rewrite <- app_assoc.
Qed.

Lemma score_post_dom self p s s' :
  score_post self p s = (Ok tt, s') ->
  is_Some (st_heap s' !! p)
  /\ forall r, is_Some (st_heap s !! r) -> is_Some (st_heap s' !! r).
Proof.
  intros (ts & cs & tc & cc & cat & _ & _ & _ & _ & _ & ->)%score_post_inv. split.
  - rewrite lookup_insert_eq. eauto.
  - intros r Hr. rewrite lookup_insert_is_Some. destruct (decide (p = r)); auto.
Qed.

Lemma for_each_dom self posts s s' :
  for_each (score_post self) posts s = (Ok tt, s') ->
  (forall r, r ∈ posts -> is_Some (st_heap s' !! r))
  /\ forall r, is_Some (st_heap s !! r) -> is_Some (st_heap s' !! r).
Proof.
  revert s. induction posts as [|p posts IH]; intros s H; cbn [for_each] in H.
  - injection H as <-. split; [by intros r ?%elem_of_nil|done].
  - inv_bind H. destruct a. destruct (score_post_dom _ _ _ _ H0) as [Hp Hkeep].
    destruct (IH _ H) as [Hin Hkeep']. split.
    + intros r [->|Hr]%elem_of_cons; auto.
    + auto.
Qed.

Lemma Forall2_functional {A B} (P : A -> B -> Prop) (l : list A) (k k' : list B) :
  (forall x y y', P x y -> P x y' -> y = y') ->
  Forall2 P l k -> Forall2 P l k' -> k = k'.
Proof.
  intros Hfun H. revert k'. induction H as [|x y l k Hxy _ IH]; intros k' H'.
  - by apply Forall2_nil_inv_l in H'.
  - apply Forall2_cons_inv_l in H' as (y' & k2 & Hxy' & Hk2 & ->).
    f_equal; [by eapply Hfun|by apply IH].
Qed.

(** X14. Analysing a batch a second time changes nothing: on posts whose
    titles and texts are strings or [None], [analyze_posts] run again on
    the posts it has annotated returns the same result and leaves the
    store exactly as the first run left it. *)
Theorem analyze_posts_idempotent (self : SentimentAnalyzer) (posts : list loc) (s : state) :
  (forall r, r ∈ posts -> fields_ok (deref (st_heap s) r)) ->
  exists (v : pyval) (s1 s2 : state),
    analyze_posts self posts s = (Ok v, s1)
    /\ analyze_posts self posts s1 = (Ok v, s2)
    /\ st_heap s2 = st_heap s1.
Proof.
  intros Hok. destruct (decide (posts = [])) as [->|Hne].
  { by exists (PList []), s, s. }
  destruct (for_each_ok self posts s Hok) as [sl Hloop].
  destruct (analyze_posts_after_loop _ _ _ _ Hne Hloop) as (cs & cats & Hcs & Hcats & Hrun).
  destruct (for_each_frame _ _ _ _ Hloop) as [_ Hf].
  destruct (for_each_dom _ _ _ _ Hloop) as [Hdom _].
  pose proof (for_each_scored _ _ _ _ Hloop) as Hsc.
  match type of Hrun with _ = (_, ?st) => set (s1 := st) in * end.
  destruct (for_each_fixed self posts s1) as [evs Hloop2].
  { intros r Hr. split_and!; [|by apply Hsc|by apply Hdom].
    eapply fields_ok_frame; [| |by apply Hok]; by apply Hf. }
  destruct (analyze_posts_after_loop _ _ _ _ Hne Hloop2) as (cs2 & cats2 & Hcs2 & Hcats2 & Hrun2).
  cbn [st_heap] in Hcs2, Hcats2, Hrun2.
  assert (cs2 = cs) as ->.
  { eapply Forall2_functional; [|exact Hcs2|exact Hcs]. intros; congruence. }
  assert (cats2 = cats) as ->.
  { eapply Forall2_functional; [|exact Hcats2|exact Hcats]. intros; congruence. }
  eexists _, s1, _. split_and!; [exact Hrun|exact Hrun2|done].
Qed.

Lemma blank_value_scores_zero self v ts :
  is_blank v = true -> returns (analyze_text self v) ts -> ts = PDict zero_scores.
Proof.
  intros Hb (st & st' & H). destruct v; try discriminate.
  - rewrite analyze_text_none in H. by injection H.
  - rewrite (analyze_text_zero self s st (strip_all_space _ Hb)) in H. by injection H.
Qed.

(** X15. A post with nothing to score is neutral: when its title and its
    text are blank ([None], missing, empty or of space characters only),
    [analyze_posts] attaches the zero record for both, the compound 0.0
    and the category [neutral]. *)
Theorem blank_post_is_neutral
    (self : SentimentAnalyzer) (posts : list loc) (s : state) (r : loc) :
  (forall p, p ∈ posts -> fields_ok (deref (st_heap s) p)) ->
  r ∈ posts ->
  is_blank (dict_get (deref (st_heap s) r) "title" (PStr "")) = true ->
  is_blank (dict_get (deref (st_heap s) r) "text" (PStr "")) = true ->
  exists (v : pyval) (s' : state),
    analyze_posts self posts s = (Ok v, s')
    /\ deref (st_heap s') r !! "sentiment"
       = Some (sentiment_record (PDict zero_scores) (PDict zero_scores) (PFloat 0))
    /\ deref (st_heap s') r !! "sentiment_category" = Some (PStr "neutral").
Proof.
  intros Hok Hr Ht Hx.
  assert (Hne : posts ≠ []) by (intros ->; by apply elem_of_nil in Hr).
  destruct (for_each_ok self posts s Hok) as [s1 Hloop].
  destruct (analyze_posts_after_loop _ _ _ _ Hne Hloop) as (cs & cats & _ & _ & Hrun).
  destruct (for_each_frame _ _ _ _ Hloop) as [_ Hf].
  destruct (for_each_scored _ _ _ _ Hloop r Hr)
    as (ts & cs' & tc & cc & cat & Hts & Hcs & Htc & Hcc & Hs & (st & st' & Hcat) & Hc).
  unfold dict_get in Hts, Hcs. rewrite !Hf in Hts, Hcs by done.
  apply (blank_value_scores_zero _ _ _ Ht) in Hts as ->.
  apply (blank_value_scores_zero _ _ _ Hx) in Hcs as ->.
  injection Htc as <-. injection Hcc as <-.
  eexists _, _. split_and!; [exact Hrun|exact Hs|].
  cbn [st_heap]. rewrite Hc. by injection Hcat as <- _.
Qed.

Lemma for_each_app {A} (f : A -> M unit) l1 l2 s :
  for_each f (l1 ++ l2) s = bind (for_each f l1) (fun _ => for_each f l2) s.
Proof.
  revert s. induction l1 as [|x l1 IH]; intros s; [done|].
  cbn [for_each app]. unfold bind at 1 2 3. destruct (f x s) as [[[]|e] s1]; [|done].
  rewrite IH. done.
Qed.

(** X16. An exception part of the way through the batch leaves the work
    done so far in place: when the posts before [p] have text-like titles
    and texts and the title of [p] is a truthy value that is not a
    string, [analyze_posts] raises [AttributeError], the posts before [p]
    keep the annotations they were given, and no other dict is touched. *)
Theorem analyze_posts_raises_midway
    (self : SentimentAnalyzer) (before rest : list loc) (p : loc) (v : pyval) (s : state) :
  (forall r, r ∈ before -> fields_ok (deref (st_heap s) r)) ->
  deref (st_heap s) p !! "title" = Some v ->
  isinstance_str v = false ->
  (forall h, truthy h v = true) ->
  exists s',
    analyze_posts self (before ++ p :: rest) s = (Raise AttributeError, s')
    /\ (forall r, r ∈ before -> scored self (deref (st_heap s') r))
    /\ (forall r, r ∉ before -> deref (st_heap s') r = deref (st_heap s) r).
Proof.
  intros Hok Hv Hstr Htrue.
  destruct (for_each_ok self before s Hok) as [s1 Hloop].
  destruct (for_each_frame _ _ _ _ Hloop) as [Hout Hf].
  exists (State (st_heap s1) (st_log s1 ++ [CallAnalyzeText v])). split_and!.
  - unfold analyze_posts. destruct (before ++ p :: rest) as [|x l] eqn:E.
    { by destruct before. }
    rewrite <- E. unfold bind at 1. rewrite for_each_app.
    rewrite (bind_Ok_intro _ _ _ _ _ Hloop). cbn [for_each].
    unfold bind at 1. unfold score_post. unfold bind at 1, get_heap. unfold bind at 1.
    unfold dict_get. rewrite Hf, Hv by done.
    rewrite analyze_text_non_str by done. by rewrite Htrue.
  - intros r Hr. by apply (for_each_scored _ _ _ _ Hloop).
  - intros r Hr. by apply Hout.
Qed.

(** ** The comments endpoint *)

Lemma sentiment_category_score c :
  is_score c ->
  exists cat, (forall s, sentiment_category c s = (Ok cat, s)) /\ is_category cat = true.
Proof.
  intros [->|[f ->]].
  - by exists "neutral".
  - unfold sentiment_category, py_le, py_ge, bind, ret. simpl.
    destruct (0.05 <=? f)%float; [by exists "positive"|].
    destruct (f <=? -0.05)%float; [by exists "negative"|by exists "neutral"].
Qed.

Lemma text_ok_get d : text_ok d -> text_like (dict_get d "text" (PStr "")).
Proof.
  intros Hd. unfold dict_get. destruct (d !! "text") as [v|] eqn:E; [by apply Hd|].
  right. by exists "".
Qed.

(** One turn of the loop over the comments, in full. *)
Lemma score_comment_run self c s :
  text_ok (deref (st_heap s) c) ->
  exists (sd : dict) (compound : pyval) (cat : string) (evs : list event),
    (forall st, (analyze_text self (dict_get (deref (st_heap s) c) "text" (PStr "")) st).1
                = Ok (PDict sd))
    /\ sd !! "compound" = Some compound
    /\ is_score compound
    /\ (forall st, sentiment_category compound st = (Ok cat, st))
    /\ is_category cat = true
    /\ score_comment self c s =
       (Ok tt,
        State (<[c := <["sentiment_category" := PStr cat]>
                  (<["sentiment" := PDict sd]> (deref (st_heap s) c))]> (st_heap s))
              (st_log s ++ evs)).
Proof.
  intros Hd.
  destruct (analyze_text_text_like self _ (text_ok_get _ Hd)) as (r & evs & Hr).
  destruct (analyze_text_inv _ _ _ _ _ (Hr s)) as (_ & sd & compound & -> & Hc & Sc).
  destruct (sentiment_category_score _ Sc) as (cat & Hcat & Hin).
  exists sd, compound, cat, evs. split_and!; try done.
  - intros st. by rewrite Hr.
  - unfold score_comment. unfold bind at 1, get_heap.
    rewrite (bind_Ok_intro _ _ _ _ _ (Hr s)).
    rewrite (bind_Ok_intro _ _ _ _ _ (set_item_heap _ _ _ _)).
    rewrite (bind_Ok_intro _ _ _ _ _ (subscript_dict _ _ _ _ Hc)).
    rewrite (bind_Ok_intro _ _ _ _ _ (Hcat _)).
    rewrite set_item_heap. cbn [st_heap st_log].
    by rewrite deref_insert_eq, insert_insert_eq.
Qed.

Lemma text_ok_frame (d d' : dict) : d' !! "text" = d !! "text" -> text_ok d -> text_ok d'.
Proof. intros Hx Hd v Hv. apply Hd. by rewrite <- Hx. Qed.

(** The loop over comments with text-like texts: it runs through, writes
    the two sentiment keys of its comments and nothing else, and leaves
    every comment scored. *)
Lemma for_each_comments self comments s :
  (forall r, r ∈ comments -> text_ok (deref (st_heap s) r)) ->
  exists s',
    for_each (score_comment self) comments s = (Ok tt, s')
    /\ (forall r k, ~ sentiment_key k -> deref (st_heap s') r !! k = deref (st_heap s) r !! k)
    /\ (forall r, r ∉ comments -> deref (st_heap s') r = deref (st_heap s) r)
    /\ (forall r, r ∈ comments -> comment_scored self (deref (st_heap s') r)).
Proof.
  revert s. induction comments as [|c comments IH]; intros s H; cbn [for_each].
  - exists s. split_and!; try done. by intros r ?%elem_of_nil.
  - destruct (score_comment_run self c s) as (sd & compound & cat & evs & Ht & Hc & Sc & Hcat & Hin & H1);
      [apply H; by left|].
    rewrite (bind_Ok_intro _ _ _ _ _ H1).
    set (s1 := State _ _) in *.
    assert (Hkeep : forall r k, ~ sentiment_key k ->
              deref (st_heap s1) r !! k = deref (st_heap s) r !! k).
    { intros r k Hk. cbn [s1 st_heap]. destruct (decide (r = c)) as [->|Hne].
      - rewrite deref_insert_eq, !lookup_insert_ne; [done| |]; intros <-; apply Hk; [by left|by right].
      - by rewrite deref_insert_ne. }
    assert (Hother : forall r, r ≠ c -> deref (st_heap s1) r = deref (st_heap s) r).
    { intros r Hne. cbn [s1 st_heap]. by rewrite deref_insert_ne. }
    assert (Hnot : ~ sentiment_key "text") by (by intros [|]).
    destruct (IH s1) as (s' & Hrun & Hf & Hout & Hsc).
    { intros r Hr. eapply text_ok_frame; [by apply Hkeep|]. apply H. by right. }
    exists s'. split_and!; [done| | |].
    + intros r k Hk. by rewrite Hf, Hkeep.
    + intros r [Hne Hr]%not_elem_of_cons. by rewrite Hout, Hother.
    + intros r Hr. destruct (decide (r ∈ comments)) as [Hin'|Hout']; [by apply Hsc|].
      apply elem_of_cons in Hr as [->|?]; [|done].
      rewrite Hout by done. cbn [s1 st_heap]. rewrite deref_insert_eq.
      exists sd, compound, cat. unfold dict_get. rewrite !lookup_insert_ne by done.
      split_and!.
      * destruct (analyze_text self (dict_get (deref (st_heap s) c) "text" (PStr "")) s)
          as [o st'] eqn:E.
        specialize (Ht s). rewrite E in Ht. simpl in Ht. subst o. by exists s, st'.
      * by rewrite lookup_insert_eq.
      * done.
      * by exists s, s.
      * by rewrite lookup_insert_eq.
Qed.

Lemma comment_scored_annotated self d :
  comment_scored self d ->
  exists c cat, item_compound d = Some c /\ item_category d = Some cat.
Proof.
  intros (sd & compound & cat & (st & st' & Hr) & Hs & Hc & (st2 & st2' & Hcat) & Hk).
  destruct (analyze_text_inv _ _ _ _ _ Hr) as (_ & sd' & c' & [= <-] & Hc' & Sc).
  rewrite Hc in Hc'. injection Hc' as <-.
  destruct (sentiment_category_score _ Sc) as (cat' & Hcat' & Hin).
  rewrite Hcat' in Hcat. injection Hcat as -> _.
  unfold item_compound, item_category. rewrite Hs, Hc, Hk, Hin.
  destruct Sc as [->|[f ->]]; eauto.
Qed.

(** The body of the comments endpoint on comments with text-like texts. *)
Lemma analyze_comments_run self comments s :
  (forall r, r ∈ comments -> text_ok (deref (st_heap s) r)) ->
  exists (s' : state) (overall : dict),
    analyze_comments self comments s =
      (Ok (PDict (list_to_map [("comments", PList (map PRef comments));
                               ("overall_sentiment", PDict overall)])), s')
    /\ (comments = [] -> overall = zero_overall /\ s' = s)
    /\ (comments ≠ [] ->
        exists cs cats,
          overall = overall_record cs cats
          /\ Forall2 (fun r c => item_compound (deref (st_heap s') r) = Some c) comments cs
          /\ Forall2 (fun r c => item_category (deref (st_heap s') r) = Some c) comments cats)
    /\ (forall r, r ∈ comments -> comment_scored self (deref (st_heap s') r))
    /\ (forall r k, ~ (r ∈ comments /\ sentiment_key k) ->
                    deref (st_heap s') r !! k = deref (st_heap s) r !! k).
Proof.
  intros Hok. destruct (decide (comments = [])) as [->|Hne].
  { exists s, zero_overall. split_and!; try done. by intros r ?%elem_of_nil. }
  destruct (for_each_comments self comments s Hok) as (s1 & Hloop & Hf & Hout & Hsc).
  destruct (Forall2_of_exists
              (fun r c => item_compound (deref (st_heap s1) r) = Some c) comments) as [cs Hcs].
  { intros r Hr. destruct (comment_scored_annotated _ _ (Hsc r Hr)) as (c & cat & Hc & _). eauto. }
  destruct (Forall2_of_exists
              (fun r c => item_category (deref (st_heap s1) r) = Some c) comments) as [cats Hcats].
  { intros r Hr. destruct (comment_scored_annotated _ _ (Hsc r Hr)) as (c & cat & _ & Hc). eauto. }
  exists s1, (overall_record cs cats). split_and!; [|done|intros _; by exists cs, cats|done|].
  - unfold analyze_comments. rewrite (bind_Ok_intro _ _ _ _ _ Hloop).
    by rewrite (bind_Ok_intro _ _ _ _ _
                  (calculate_overall_sentiment_run self _ cs cats s1 Hne Hcs Hcats)).
  - intros r k Hn. destruct (decide (r ∈ comments)) as [Hr|Hr]; [|by rewrite Hout].
    apply Hf. tauto.
Qed.

(** X17. The comments endpoint on comments whose texts are strings or
    [None]: its body returns a dict of the comments, in their order, and
    of their overall sentiment, the mean and fractions of the compounds
    and categories just attached. For no comments at all it still returns
    that dict, with the four overall fields 0, where [analyze_posts]
    returns a bare list. *)
Theorem analyze_comments_result (self : SentimentAnalyzer) (comments : list loc) (s : state) :
  (forall r, r ∈ comments -> text_ok (deref (st_heap s) r)) ->
  exists (s' : state) (overall : dict),
    analyze_comments self comments s =
      (Ok (PDict (list_to_map [("comments", PList (map PRef comments));
                               ("overall_sentiment", PDict overall)])), s')
    /\ (comments = [] -> overall = zero_overall /\ s' = s)
    /\ (comments ≠ [] ->
        exists cs cats,
          overall = overall_record cs cats
          /\ Forall2 (fun r c => item_compound (deref (st_heap s') r) = Some c) comments cs
          /\ Forall2 (fun r c => item_category (deref (st_heap s') r) = Some c) comments cats).
Proof.
  intros Hok.
  destruct (analyze_comments_run self comments s Hok) as (s' & overall & H1 & H2 & H3 & _).
  by exists s', overall.
Qed.

(** X18. After the comments endpoint has run, every comment carries as
    [sentiment] the record [analyze_text] returns on its text (on the
    empty string when it has none) and as [sentiment_category] the
    category of the compound of that record; no other entry of the store
    has changed. *)
Theorem analyze_comments_annotations
    (self : SentimentAnalyzer) (comments : list loc) (s : state) :
  (forall r, r ∈ comments -> text_ok (deref (st_heap s) r)) ->
  exists (v : pyval) (s' : state),
    analyze_comments self comments s = (Ok v, s')
    /\ (forall r, r ∈ comments -> comment_scored self (deref (st_heap s') r))
    /\ (forall r k, ~ (r ∈ comments /\ sentiment_key k) ->
                    deref (st_heap s') r !! k = deref (st_heap s) r !! k).
Proof.
  intros Hok.
  destruct (analyze_comments_run self comments s Hok) as (s' & overall & H1 & _ & _ & H4 & H5).
  by eexists _, s'.
Qed.

(** ** The scraper and the endpoints *)

Lemma slice_to_prefix {A} (limit : Z) (l : list A) :
  exists rest, l = slice_to limit l ++ rest.
Proof.
  unfold slice_to. destruct (0 <=? limit)%Z; eexists; symmetry; apply take_drop.
Qed.

(** X19. [get_trending_topics] returns the first entries of what praw
    lists, in their order: [limit] of them when there are that many, all
    of them otherwise; a negative [limit] does not raise but drops that
    many entries from the end. *)
Theorem get_trending_topics_prefix {A} (trending : list A) (limit : Z) :
  (exists rest, trending = get_trending_topics trending limit ++ rest)
  /\ ((0 <= limit)%Z ->
      length (get_trending_topics trending limit) = Nat.min (Z.to_nat limit) (length trending))
  /\ ((limit < 0)%Z ->
      length (get_trending_topics trending limit)
      = (length trending - Z.to_nat (- limit))%nat).
Proof.
  unfold get_trending_topics. split_and!.
  - apply slice_to_prefix.
  - intros H. unfold slice_to. destruct (Z.leb_spec 0 limit); [|lia]. by rewrite length_take.
  - intros H. unfold slice_to. destruct (Z.leb_spec 0 limit); [lia|]. rewrite length_take. lia.
Qed.

(** A list comprehension of dict displays: one new object for each
    element, none of them in the store before, nothing else touched. *)
Lemma map_m_alloc {A} (g : A -> dict) (l : list A) (s : state) :
  exists (refs : list loc) (s' : state),
    map_m (fun x => alloc (g x)) l s = (Ok refs, s')
    /\ st_log s' = st_log s
    /\ NoDup refs
    /\ (forall r, r ∈ refs -> st_heap s !! r = None)
    /\ Forall2 (fun r x => st_heap s' !! r = Some (g x)) refs l
    /\ (forall r, r ∉ refs -> st_heap s' !! r = st_heap s !! r).
Proof.
  revert s. induction l as [|x l IH]; intros s.
  - exists [], s. split_and!; try done; [constructor|by intros r ?%elem_of_nil].
  - set (r0 := fresh (dom (st_heap s))).
    assert (Hfresh : st_heap s !! r0 = None) by apply not_elem_of_dom, is_fresh.
    destruct (IH (State (<[r0 := g x]> (st_heap s)) (st_log s)))
      as (refs & s' & Hrun & Hlog & Hnd & Hnew & Hall & Hold).
    cbn [st_heap st_log] in *.
    assert (Hr0 : r0 ∉ refs).
    { intros Hin. specialize (Hnew _ Hin). by rewrite lookup_insert_eq in Hnew. }
    exists (r0 :: refs), s'. split_and!.
    + cbn [map_m]. unfold bind at 1. unfold alloc at 1. fold r0.
      unfold bind at 1. by rewrite Hrun.
    + done.
    + by constructor.
    + intros r [->|Hr]%elem_of_cons; [done|].
      specialize (Hnew _ Hr). by apply lookup_insert_None in Hnew as [? _].
    + constructor; [|done]. by rewrite Hold, lookup_insert_eq.
    + intros r [Hne Hr]%not_elem_of_cons. by rewrite Hold, lookup_insert_ne.
Qed.

Lemma deref_of_lookup (h : heap) r d : h !! r = Some d -> deref h r = d.
Proof. intros H. unfold deref. by apply lookup_total_correct. Qed.

(** X20. [get_hot_posts] builds one new dict for each submission of the
    listing, in the order of the listing and with the nine fields read
    off the submission, the subreddit being the name asked for; the dicts
    are objects of their own, distinct from each other and from
    everything in the store, which is otherwise left as it was. *)
Theorem get_hot_posts_builds_dicts
    (isoformat : float -> string) (subreddit_name : string) (listing : list submission)
    (s : state) :
  exists (posts : list loc) (s' : state),
    get_hot_posts isoformat subreddit_name listing s = (Ok posts, s')
    /\ st_log s' = st_log s
    /\ NoDup posts
    /\ (forall r, r ∈ posts -> st_heap s !! r = None)
    /\ Forall2 (fun r x => deref (st_heap s') r = post_dict isoformat subreddit_name x
                           /\ deref (st_heap s') r !! "subreddit" = Some (PStr subreddit_name)
                           /\ deref (st_heap s') r !! "title" = Some (PStr (subm_title x))
                           /\ deref (st_heap s') r !! "text" = Some (PStr (subm_selftext x)))
               posts listing
    /\ (forall r, r ∉ posts -> st_heap s' !! r = st_heap s !! r).
Proof.
  destruct (map_m_alloc (post_dict isoformat subreddit_name) listing s)
    as (refs & s' & Hrun & Hlog & Hnd & Hnew & Hall & Hold).
  exists refs, s'. split_and!; try done.
  eapply Forall2_impl; [exact Hall|]. intros r x Hr. cbn beta in Hr.
  rewrite (deref_of_lookup _ _ _ Hr). by split_and!.
Qed.

(** X21. [get_post_comments] of the scraper reads the first [limit]
    comments of the flattened tree (all of them when there are fewer) and
    builds one new dict for each, in their order, with the five fields
    read off the comment. *)
Theorem get_post_comments_builds_dicts
    (isoformat : float -> string) (flattened : list reddit_comment) (limit : Z) (s : state) :
  (0 <= limit)%Z ->
  exists (comments : list loc) (s' : state),
    get_post_comments isoformat flattened limit s = (Ok comments, s')
    /\ length comments = Nat.min (Z.to_nat limit) (length flattened)
    /\ NoDup comments
    /\ (forall r, r ∈ comments -> st_heap s !! r = None)
    /\ Forall2 (fun r x => deref (st_heap s') r = comment_dict isoformat x)
               comments (take (Z.to_nat limit) flattened)
    /\ (forall r, r ∉ comments -> st_heap s' !! r = st_heap s !! r).
Proof.
  intros Hl. unfold get_post_comments, slice_to. destruct (Z.leb_spec 0 limit); [|lia].
  destruct (map_m_alloc (comment_dict isoformat) (take (Z.to_nat limit) flattened) s)
    as (refs & s' & Hrun & Hlog & Hnd & Hnew & Hall & Hold).
  exists refs, s'. split_and!; try done.
  - by rewrite (Forall2_length _ _ _ Hall), length_take.
  - eapply Forall2_impl; [exact Hall|]. intros r x Hr. by apply deref_of_lookup.
Qed.


Lemma comment_dict_text_ok isoformat comment : text_ok (comment_dict isoformat comment).
Proof. intros v [= <-]. right. eauto. Qed.

Lemma Forall2_with_left {A B} (P : A -> B -> Prop) (Q : A -> Prop) l k :
  Forall2 P l k -> (forall x, x ∈ l -> Q x) -> Forall2 (fun x y => Q x /\ P x y) l k.
Proof.
  induction 1 as [|x y l k Hxy _ IH]; intros HQ; constructor.
  - split; [apply HQ; by left|done].
  - apply IH. intros z Hz. apply HQ. by right.
Qed.




(** X24. The comments endpoint always answers with a dict of [comments]
    and [overall_sentiment]: one comment for each of the comments the
    scraper kept, in their order, each the dict scraped from it with the
    two annotations added; when there is no comment the overall sentiment
    is the zero record. *)
Theorem post_comments_endpoint_answers
    (self : SentimentAnalyzer) (isoformat : float -> string)
    (flattened : list reddit_comment) (limit : Z) (s : state) :
  exists (d overall : dict) (comments : list loc) (s' : state),
    post_comments_endpoint self isoformat flattened limit s = (Json (PDict d), s')
    /\ d !! "comments" = Some (PList (map PRef comments))
    /\ d !! "overall_sentiment" = Some (PDict overall)
    /\ (slice_to limit flattened = [] -> overall = zero_overall)
    /\ Forall2 (fun r x =>
                  comment_scored self (deref (st_heap s') r)
                  /\ forall k, ~ sentiment_key k ->
                       deref (st_heap s') r !! k = comment_dict isoformat x !! k)
               comments (slice_to limit flattened).
Proof.
  unfold post_comments_endpoint, get_post_comments, endpoint.
  destruct (map_m_alloc (comment_dict isoformat) (slice_to limit flattened) s)
    as (refs & s1 & Hrun & Hlog & Hnd & Hnew & Hall & Hold).
  rewrite (bind_Ok_intro _ _ _ _ _ Hrun).
  assert (Hok : forall r, r ∈ refs -> text_ok (deref (st_heap s1) r)).
  { intros r Hr. apply list_elem_of_lookup in Hr as [i Hi].
    destruct (Forall2_lookup_l _ _ _ i r Hall Hi) as (y & _ & Hy).
    rewrite (deref_of_lookup _ _ _ Hy). apply comment_dict_text_ok. }
  destruct (analyze_comments_run self refs s1 Hok) as (s' & overall & Hres & Hnil & _ & Hsc & Hf).
  rewrite Hres. eexists _, overall, refs, s'. split_and!; [done|done|done| |].
  - intros E. rewrite E in Hall. apply Forall2_nil_inv_r in Hall. by apply Hnil.
  - eapply Forall2_impl.
    { apply Forall2_with_left, Hsc. exact Hall. }
    intros r y [Hr Hy]. cbn beta in Hy. split; [done|].
    intros k Hk. rewrite Hf by tauto. by rewrite (deref_of_lookup _ _ _ Hy).
Qed.

(** ** The theorems at concrete inputs *)

(** Witness of C2: the batch of [demo_heap]; the title of post 0 scores 1.0
    and its text 0.0. *)
Lemma weighted_compound_witness :
  exists (ts cs : pyval) (tc cc : float),
    returns (analyze_text demo (dict_get (deref (st_heap demo_start) 0%nat) "title" (PStr ""))) ts
    /\ returns (analyze_text demo (dict_get (deref (st_heap demo_start) 0%nat) "text" (PStr ""))) cs
    /\ compound_of ts = Some tc
    /\ compound_of cs = Some cc
    /\ deref (st_heap demo_run.2) 0%nat !! "sentiment"
       = Some (sentiment_record ts cs (PFloat (0.7 * tc + 0.3 * cc))).
Proof.
  refine (weighted_compound demo [0%nat; 1%nat] demo_start demo_run.2 demo_value _ 0%nat _).
  - vm_compute. reflexivity.
  - left.
Defined.

(** Title compound 1.0 and text compound 0.0 give the post compound 0.7. *)
Example demo_compound :
  item_compound (deref (st_heap demo_run.2) 0%nat) = Some 0.7%float
  /\ item_category (deref (st_heap demo_run.2) 0%nat) = Some "positive"
  /\ item_compound (deref (st_heap demo_run.2) 1%nat) = Some 0%float
  /\ item_category (deref (st_heap demo_run.2) 1%nat) = Some "neutral".
Proof. vm_compute. by split_and!. Qed.


(** Witness of C7: a text of three spaces. *)
Lemma analyze_text_blank_witness :
  analyze_text demo (PStr "   ") demo_start
  = (Ok (PDict zero_scores), State demo_heap [CallAnalyzeText (PStr "   ")]).
Proof.
  destruct (analyze_text_blank demo "   " demo_start) as [H _]; [reflexivity|exact H].
Defined.

Lemma demo_fields_ok : forall r, r ∈ [0%nat; 1%nat] -> fields_ok (deref (st_heap demo_start) r).
Proof.
  intros r Hr k v Hk Hv.
  apply elem_of_cons in Hr as [->|Hr]; [|apply list_elem_of_singleton in Hr as ->];
    destruct Hk as [-> | ->]; vm_compute in Hv; try discriminate;
    injection Hv as <-; right; eexists; reflexivity.
Defined.

(** Witness of C9: post 1 of [demo_heap] has neither title nor text. *)
Lemma missing_fields_witness :
  exists (v : pyval) (s' : state), analyze_posts demo [0%nat; 1%nat] demo_start = (Ok v, s').
Proof.
  destruct (missing_fields_read_as_empty demo [0%nat; 1%nat] demo_start demo_fields_ok)
    as (v & s' & H & _).
  by exists v, s'.
Defined.


Example demo_topics :
  top_topics demo [PStr "The cat, the Cat and a dog: http://x.y/z"; PStr "dog! DOG cat"] 2
  = [("cat", 3%nat); ("dog", 3%nat)].
Proof. vm_compute. reflexivity. Qed.

(** Witness of X2: the transformer fails on ["bad"]. *)
Lemma transformer_failure_degrades_witness :
  (analyze_text demo_with_transformer (PStr "bad") demo_start).1
  = (analyze_text (without_transformers demo_with_transformer) (PStr "bad") demo_start).1.
Proof.
  exact (proj1 (transformer_failure_degrades demo_with_transformer "bad" demo_start eq_refl)).
Defined.

(** Witness of X3: the transformer answers on ["great"]. *)
Lemma transformer_result_merged_witness :
  exists d,
    analyze_text demo_with_transformer (PStr "great") demo_start =
      (Ok (PDict d),
       State demo_heap [CallAnalyzeText (PStr "great"); CallPolarityScores "great";
                        CallTransformer "great"])
    /\ d !! "transformer_label" = Some (PStr "POSITIVE").
Proof.
  destruct (transformer_result_merged demo_with_transformer "great" "POSITIVE" 0.99 demo_start)
    as (d & H1 & H2 & _); [reflexivity|by vm_compute|reflexivity|].
  exists d. split; [exact H1|exact H2].
Defined.


(** Witness of X5: a text with capitals and punctuation. *)
Lemma preprocess_text_alphabet_witness :
  all_chars ascii_normal_char (preprocess_text (PStr "Hello, World!")) = true
  /\ (String.length (preprocess_text (PStr "Hello, World!"))
      <= String.length "Hello, World!")%nat.
Proof. exact (preprocess_text_alphabet "Hello, World!" eq_refl). Defined.

(** Witness of X8: two distinct candidates, ten asked for. *)
Lemma extract_topics_complete_witness :
  sum_list_with snd (top_topics demo [PStr "cat dog cat"] 10)
  = length (candidates demo (nlp demo (corpus [PStr "cat dog cat"]))).
Proof.
  refine (proj2 (proj2 (extract_topics_complete demo [PStr "cat dog cat"] 10 _))).
  vm_compute. discriminate.
Defined.

(** Witness of X10: the title of post 0 of [demo_heap]. *)
Lemma analyze_posts_writes_only_annotations_witness :
  deref (st_heap demo_run.2) 0%nat !! "title" = deref (st_heap demo_start) 0%nat !! "title".
Proof.
  refine (analyze_posts_writes_only_annotations demo [0%nat; 1%nat] demo_start 0%nat "title" _).
  intros [_ [H|H]]; discriminate H.
Defined.

(** Witness of X11: the posts of [demo_heap] before they are analysed. *)
Lemma overall_sentiment_needs_annotations_witness :
  calculate_overall_sentiment demo [0%nat; 1%nat] demo_start
  = (Raise (KeyError "sentiment"), demo_start).
Proof.
  refine (proj2 (overall_sentiment_needs_annotations demo [0%nat; 1%nat] demo_start 0%nat _ _)
            eq_refl).
  - left.
  - vm_compute. reflexivity.
Defined.

(** Witness of X12: the two posts of [demo_heap] cost four calls. *)
Lemma analyze_posts_scorer_calls_witness :
  exists (v : pyval) (s' : state) (evs : list event),
    analyze_posts demo [0%nat; 1%nat] demo_start = (Ok v, s')
    /\ st_log s' = st_log demo_start ++ evs
    /\ filter is_scorer_call evs = flat_map (scorer_calls (st_heap demo_start)) [0%nat; 1%nat]
    /\ length (filter is_scorer_call evs) = 4%nat.
Proof. exact (analyze_posts_scorer_calls demo [0%nat; 1%nat] demo_start demo_fields_ok). Defined.

(** Witness of X13: the batch of [demo_heap]. *)
Lemma analyze_posts_result_witness :
  exists (d : dict) (s' : state),
    analyze_posts demo [0%nat; 1%nat] demo_start = (Ok (PDict d), s')
    /\ d !! "posts" = Some (PList [PRef 0%nat; PRef 1%nat]).
Proof.
  destruct (analyze_posts_result demo [0%nat; 1%nat] demo_start) as (s' & cs & cats & H & _);
    [discriminate|exact demo_fields_ok|].
  eexists _, s'. split; [exact H|reflexivity].
Defined.

(** Witness of X14: the batch of [demo_heap], analysed twice. *)
Lemma analyze_posts_idempotent_witness :
  exists (v : pyval) (s1 s2 : state),
    analyze_posts demo [0%nat; 1%nat] demo_start = (Ok v, s1)
    /\ analyze_posts demo [0%nat; 1%nat] s1 = (Ok v, s2)
    /\ st_heap s2 = st_heap s1.
Proof. exact (analyze_posts_idempotent demo [0%nat; 1%nat] demo_start demo_fields_ok). Defined.

(** Witness of X15: post 1 of [demo_heap] has neither title nor text. *)
Lemma blank_post_is_neutral_witness :
  exists (v : pyval) (s' : state),
    analyze_posts demo [0%nat; 1%nat] demo_start = (Ok v, s')
    /\ deref (st_heap s') 1%nat !! "sentiment"
       = Some (sentiment_record (PDict zero_scores) (PDict zero_scores) (PFloat 0))
    /\ deref (st_heap s') 1%nat !! "sentiment_category" = Some (PStr "neutral").
Proof.
  refine (blank_post_is_neutral demo [0%nat; 1%nat] demo_start 1%nat demo_fields_ok _ _ _).
  - right. left.
  - vm_compute. reflexivity.
  - vm_compute. reflexivity.
Defined.

(** Witness of X16: post 1 of [demo_bad_start] has the title 5. *)
Lemma analyze_posts_raises_midway_witness :
  exists s',
    analyze_posts demo ([0%nat] ++ 1%nat :: []) demo_bad_start = (Raise AttributeError, s')
    /\ scored demo (deref (st_heap s') 0%nat).
Proof.
  destruct (analyze_posts_raises_midway demo [0%nat] [] 1%nat (PInt 5) demo_bad_start)
    as (s' & H & Hsc & _).
  - intros r Hr k v Hk Hv. apply list_elem_of_singleton in Hr as ->.
    destruct Hk as [-> | ->]; vm_compute in Hv; try discriminate.
    injection Hv as <-. right. eexists. reflexivity.
  - vm_compute. reflexivity.
  - reflexivity.
  - intros h. reflexivity.
  - exists s'. split; [exact H|]. apply Hsc. left.
Defined.

Lemma demo_text_ok : forall r, r ∈ [0%nat; 1%nat] -> text_ok (deref (st_heap demo_start) r).
Proof. intros r Hr v Hv. apply (demo_fields_ok r Hr "text" v); [by right|exact Hv]. Defined.

(** Witness of X17: the dicts of [demo_heap] read as comments. *)
Lemma analyze_comments_result_witness :
  exists (s' : state) (overall : dict),
    analyze_comments demo [0%nat; 1%nat] demo_start =
      (Ok (PDict (list_to_map [("comments", PList (map PRef [0%nat; 1%nat]));
                               ("overall_sentiment", PDict overall)])), s').
Proof.
  destruct (analyze_comments_result demo [0%nat; 1%nat] demo_start demo_text_ok)
    as (s' & overall & H & _).
  by exists s', overall.
Defined.

(** Witness of X18: the same comments. *)
Lemma analyze_comments_annotations_witness :
  exists (v : pyval) (s' : state),
    analyze_comments demo [0%nat; 1%nat] demo_start = (Ok v, s')
    /\ comment_scored demo (deref (st_heap s') 1%nat).
Proof.
  destruct (analyze_comments_annotations demo [0%nat; 1%nat] demo_start demo_text_ok)
    as (v & s' & H & Hsc & _).
  exists v, s'. split; [exact H|]. apply Hsc. right. left.
Defined.

(** Witness of X21: the first of two comments. *)
Lemma get_post_comments_builds_dicts_witness :
  exists (comments : list loc) (s' : state),
    get_post_comments demo_isoformat demo_comments 1 demo_start = (Ok comments, s')
    /\ length comments = 1%nat.
Proof.
  destruct (get_post_comments_builds_dicts demo_isoformat demo_comments 1 demo_start Z.le_0_1)
    as (comments & s' & H & Hlen & _).
  by exists comments, s'.
Defined.

(** A string the normalizer leaves as it is. *)
Example demo_normalized_fixed :
  all_chars normal_char "hello world" = true
  /\ has_url "hello world" = false
  /\ preprocess_text (PStr "hello world") = "hello world".
Proof. by vm_compute. Qed.

(** The comments endpoint on two comments, limited to one. *)
Example demo_comments_endpoint :
  exists d s',
    post_comments_endpoint demo demo_isoformat demo_comments 1 demo_start = (Json (PDict d), s')
    /\ d !! "overall_sentiment"
       = Some (PDict (list_to_map [("compound", PFloat 1); ("positive", PFloat 1);
                                   ("neutral", PFloat 0); ("negative", PFloat 0)])).
Proof. vm_compute. eexists _, _. split; reflexivity. Qed.
